(** * Defense strategies against SPPV and SPCSV: analysis scripts

    A shallow embedding of the scripts of the repository:

    - [download_kegg_pathways_db.py], the KEGG page extractor: module
      [Soup] models the parsed page and the tree queries the script calls,
      module [Extractor] the script itself;
    - [kegg_paths_plot.py], the KEGG enrichment merge-and-plot script:
      module [KeggPlot] (the loading of the curated table) and module
      [KeggMerge] (the cleaning of the pathway IDs, the merge, the top
      rows);
    - [go_plots_300724.py], the GO-terms plot script: module [GoPlot]
      (the table from the filter to the bars of each panel).

    The virus-copies script holds its data as literals and draws its error
    bars from the random generator of the numeric library: module
    [VirusCopies] models the error bars with the draws as an input.

    Python strings are modelled as [string], one [ascii] per code point
    (code points below 256); 64-bit floats as primitive floats. *)

From Stdlib Require Import List String Ascii Bool Arith PeanoNat Lia.
From Stdlib Require Import Sorting.Sorted Relations.Relation_Operators.
From Stdlib Require Import ZArith Floats.
From Stdlib Require Import Sorting.Permutation.
From Stdlib Require DecimalString DecimalPos DecimalN.
Import ListNotations.

Set Warnings "-register-all".
Local Open Scope string_scope.
Local Open Scope list_scope.

(* ================================================================== *)
(** ** Python string operations used by the scripts *)
(* ================================================================== *)

Module PyStr.

(** [str.isspace] on one code point below 256: TAB..CR, FS..US, space,
    NEL (0x85) and NBSP (0xA0). *)
Definition is_space (c : ascii) : bool :=
  let n := nat_of_ascii c in
  (Nat.leb 9 n && Nat.leb n 13) || (Nat.leb 28 n && Nat.leb n 32)
  || Nat.eqb n 133 || Nat.eqb n 160.

(** [s.lstrip()] *)
Fixpoint lstrip (s : string) : string :=
  match s with
  | EmptyString => EmptyString
  | String c r => if is_space c then lstrip r else s
  end.

(** [s.rstrip()] *)
Fixpoint rstrip (s : string) : string :=
  match s with
  | EmptyString => EmptyString
  | String c r =>
      match rstrip r with
      | EmptyString => if is_space c then EmptyString else String c EmptyString
      | r' => String c r'
      end
  end.

(** [s.strip()] *)
Definition strip (s : string) : string := rstrip (lstrip s).

(** The tail of [s] after its first space, if it has one. *)
Fixpoint after_first_space (s : string) : option string :=
  match s with
  | EmptyString => None
  | String c r => if Ascii.eqb c " " then Some r else after_first_space r
  end.

(** [s.split(' ', 1)[-1]]: what follows the first space, or all of [s]
    when it has none. *)
Definition split1_last (s : string) : string :=
  match after_first_space s with
  | Some r => r
  | None => s
  end.

(** Truthiness of a string: [if s]. *)
Definition truthy (s : string) : bool :=
  match s with
  | EmptyString => false
  | String _ _ => true
  end.

(** [s.zfill(width)]: zeros on the left up to [width], after a leading
    sign if there is one. *)
Definition zeros (n : nat) : string := string_of_list_ascii (repeat "0"%char n).

Definition zfill (width : nat) (s : string) : string :=
  let pad := zeros (width - String.length s) in
  match s with
  | String c r =>
      if Ascii.eqb c "+" || Ascii.eqb c "-" then String c (pad ++ r)%string
      else (pad ++ s)%string
  | EmptyString => pad
  end.

(** [re.sub('ko', '', s)]: one scan from the left, every match dropped. *)
Fixpoint sub_ko (s : string) : string :=
  match s with
  | EmptyString => EmptyString
  | String c r =>
      match r with
      | String c' r' =>
          if Ascii.eqb c "k" && Ascii.eqb c' "o" then sub_ko r'
          else String c (sub_ko r)
      | EmptyString => s
      end
  end.

(** [s[:n]] *)
Fixpoint prefix_n (n : nat) (s : string) : string :=
  match n, s with
  | S n', String c r => String c (prefix_n n' r)
  | _, _ => EmptyString
  end.

End PyStr.

(* ================================================================== *)
(** ** The parsed page: elements, positions and the queries of the script *)
(* ================================================================== *)

Module Soup.

(** A node of the parsed page: a text string, a string that [.text] leaves
    out (a comment, a declaration), or a tag with its name, the values of
    its [class] attribute and its contents. *)
Inductive node : Type :=
| NavigableString (s : string)
| Comment (s : string)
| Tag (name : string) (classes : list string) (contents : list node).

(** An element as the script holds it: the node, where it is (the path of
    its parent from the root and its index among the parent's contents) and
    the siblings that follow it. *)
Record element : Type := Element {
  parent_path : list nat;
  index : nat;
  elem : node;
  next_siblings : list node
}.

Definition path (e : element) : list nat := parent_path e ++ [index e].

(** The contents [l] of the element at [p], from index [i] on, each node
    followed by its own descendants: the order of [.descendants]. *)
Fixpoint node_descendants (p : list nat) (n : node) {struct n} : list element :=
  match n with
  | Tag _ _ cs =>
      (fix walk (i : nat) (l : list node) {struct l} : list element :=
         match l with
         | [] => []
         | c :: r =>
             Element p i c r :: node_descendants (p ++ [i]) c ++ walk (S i) r
         end) 0 cs
  | _ => []
  end.

Fixpoint walk (p : list nat) (i : nat) (l : list node) : list element :=
  match l with
  | [] => []
  | c :: r => Element p i c r :: node_descendants (p ++ [i]) c ++ walk p (S i) r
  end.

Definition descendants (e : element) : list element :=
  node_descendants (path e) (elem e).

(** Document order on positions: an element comes before what it
    contains and before what follows it. *)
Fixpoint path_ltb (p q : list nat) : bool :=
  match p, q with
  | [], [] => false
  | [], _ :: _ => true
  | _ :: _, [] => false
  | i :: p', j :: q' => Nat.ltb i j || (Nat.eqb i j && path_ltb p' q')
  end.

Definition before (a b : element) : Prop := path_ltb (path a) (path b) = true.

(** The document is the contents of the root object. *)
Definition soup : Type := list node.

Definition soup_descendants (doc : soup) : list element := walk [] 0 doc.

(** [.text]: the text strings below the node, concatenated. *)
Fixpoint text (n : node) : string :=
  match n with
  | NavigableString s => s
  | Comment _ => EmptyString
  | Tag _ _ cs =>
      (fix cat (l : list node) : string :=
         match l with
         | [] => EmptyString
         | c :: r => (text c ++ cat r)%string
         end) cs
  end.

Definition is_tag (nm : string) (n : node) : bool :=
  match n with
  | Tag nm' _ _ => String.eqb nm' nm
  | _ => false
  end.

(** A tag [nm] one of whose class values is [cls]. *)
Definition is_tag_class (nm cls : string) (n : node) : bool :=
  match n with
  | Tag nm' cs _ => String.eqb nm' nm && existsb (String.eqb cls) cs
  | _ => false
  end.

(** [e.find_all(nm)] and [soup.find_all(nm)] *)
Definition find_all (nm : string) (e : element) : list element :=
  filter (fun d => is_tag nm (elem d)) (descendants e).

Definition soup_find_all (nm : string) (doc : soup) : list element :=
  filter (fun d => is_tag nm (elem d)) (soup_descendants doc).

(** [e.find(nm)]: the first of [find_all], or [None]. *)
Definition find (nm : string) (e : element) : option element :=
  hd_error (find_all nm e).

(** The first of the nodes [l], which sit at index [i] and after below
    [pp], that [P] accepts. *)
Fixpoint first_match (P : node -> bool) (pp : list nat) (i : nat)
    (l : list node) : option element :=
  match l with
  | [] => None
  | c :: r => if P c then Some (Element pp i c r) else first_match P pp (S i) r
  end.

(** [e.find_next_sibling(...)] with the filter [P]. *)
Definition find_next_sibling (P : node -> bool) (e : element) : option element :=
  first_match P (parent_path e) (S (index e)) (next_siblings e).

End Soup.

(* ================================================================== *)
(** ** download_kegg_pathways_db.py *)
(* ================================================================== *)

Module Extractor.
Import PyStr Soup.

(** One row of [data]; the keys 'Sub-category', 'Pathway ID' and
    'Pathway Name' are spelled with underscores. *)
Record PathwayRecord : Type := Row {
  Category : string;
  Sub_category : string;
  Pathway_ID : string;
  Pathway_Name : string
}.

(** The list-container filter of the script: [('div', class_='list')]. *)
Definition div_list : node -> bool := is_tag_class "div" "list".

(** The body of the loop over [dl.find_all('dt')]: [data] before the
    iteration to [data] after it. *)
Definition process_dt (category_name subcategory_name : string)
    (data : list PathwayRecord) (dt : element) : list PathwayRecord :=
  let id_code := strip (text (elem dt)) in
  if truthy id_code && Nat.leb 5 (String.length id_code) then
    match find_next_sibling (is_tag "dd") dt with
    | Some dd_tag =>
        match find "a" dd_tag with
        | Some a_tag =>
            let pathway_name := strip (text (elem a_tag)) in
            data ++ [ {| Category := category_name;
                         Sub_category := subcategory_name;
                         Pathway_ID := (">" ++ id_code ++ " <")%string;
                         Pathway_Name := pathway_name |} ]
        | None => data
        end
    | None => data
    end
  else data.

(** [extract_pathways(dl_elements, category_name, subcategory_name)],
    threading the global [data]. *)
Definition extract_pathways (dl_elements : list element)
    (category_name subcategory_name : string)
    (data : list PathwayRecord) : list PathwayRecord :=
  fold_left
    (fun data dl =>
       fold_left (process_dt category_name subcategory_name)
                 (find_all "dt" dl) data)
    dl_elements data.

(** The records one definition list contributes. *)
Definition dl_records (c s : string) (dl : element) : list PathwayRecord :=
  flat_map (process_dt c s []) (find_all "dt" dl).

(** [e.text.strip().split(' ', 1)[-1].strip()] *)
Definition name_of (e : element) : string :=
  strip (split1_last (strip (text (elem e)))).

(** The same on a string: the name a heading or label text gives. *)
Definition name_of_text (s : string) : string :=
  strip (split1_last (strip s)).

(** The body shared by the two loops over bold labels. *)
Definition process_b (category_name : string) (data : list PathwayRecord)
    (b_tag : element) : list PathwayRecord :=
  let subcategory_name := name_of b_tag in
  match find_next_sibling div_list b_tag with
  | Some subcategory_dl =>
      extract_pathways (find_all "dl" subcategory_dl)
                       category_name subcategory_name data
  | None => data
  end.

(** The body of [for category in categories]. *)
Definition process_category (data : list PathwayRecord) (category : element)
    : list PathwayRecord :=
  let category_name := name_of category in
  match find_next_sibling div_list category with
  | Some subcategories =>
      fold_left (process_b category_name) (find_all "b" subcategories) data
  | None => data
  end.

(** The category-scoped pass: [for category in soup.find_all('h4')]. *)
Definition categories_loop (doc : soup) (data : list PathwayRecord)
    : list PathwayRecord :=
  fold_left process_category (soup_find_all "h4" doc) data.

(** The whole-document pass: [for b_tag in soup.find_all('b')]. *)
Definition additional_loop (doc : soup) (data : list PathwayRecord)
    : list PathwayRecord :=
  fold_left (process_b "N/A") (soup_find_all "b" doc) data.

(** The rows handed to [pd.DataFrame(data)] and written to the CSV. *)
Definition run (doc : soup) : list PathwayRecord :=
  additional_loop doc (categories_loop doc []).

(** *** The iterations of the loops

    Each run of the innermost loop body is named by the elements the
    enclosing loops hold at that moment, outermost first. *)

(** The (dl, dt) pairs [extract_pathways] goes through. *)
Definition term_visits (dl_elements : list element)
    : list (element * element) :=
  flat_map (fun dl => map (pair dl) (find_all "dt" dl)) dl_elements.

(** The pairs reached from one bold label. *)
Definition label_visits (b_tag : element) : list (element * element) :=
  match find_next_sibling div_list b_tag with
  | Some subcategory_dl => term_visits (find_all "dl" subcategory_dl)
  | None => []
  end.

(** The (b, (dl, dt)) iterations below a list container or a document. *)
Definition labels_visits (labels : list element)
    : list (element * (element * element)) :=
  flat_map (fun b => map (pair b) (label_visits b)) labels.

Definition heading_visits (category : element)
    : list (element * (element * element)) :=
  match find_next_sibling div_list category with
  | Some subcategories => labels_visits (find_all "b" subcategories)
  | None => []
  end.

(** The (h4, (b, (dl, dt))) iterations of the category-scoped pass. *)
Definition category_visits (doc : soup)
    : list (element * (element * (element * element))) :=
  flat_map (fun h => map (pair h) (heading_visits h)) (soup_find_all "h4" doc).

(** The (b, (dl, dt)) iterations of the whole-document pass. *)
Definition additional_visits (doc : soup)
    : list (element * (element * element)) :=
  labels_visits (soup_find_all "b" doc).

(** What each iteration appends. *)
Definition category_visit_records
    (v : element * (element * (element * element))) : list PathwayRecord :=
  process_dt (name_of (fst v)) (name_of (fst (snd v))) [] (snd (snd (snd v))).

Definition additional_visit_records
    (v : element * (element * element)) : list PathwayRecord :=
  process_dt "N/A" (name_of (fst v)) [] (snd (snd v)).

(** The test a term passes to give a record. *)
Definition valid_term (dt : element) : bool :=
  let id_code := strip (text (elem dt)) in
  truthy id_code && Nat.leb 5 (String.length id_code)
  && match find_next_sibling (is_tag "dd") dt with
     | Some dd_tag => match find "a" dd_tag with Some _ => true | None => false end
     | None => false
     end.

(** Document order on iterations: by the outer element first. *)
Definition before2 : element * element -> element * element -> Prop :=
  slexprod _ _ before before.
Definition before3 : element * (element * element) ->
                     element * (element * element) -> Prop :=
  slexprod _ _ before before2.
Definition before4 : element * (element * (element * element)) ->
                     element * (element * (element * element)) -> Prop :=
  slexprod _ _ before before3.

(** *** Documents used as examples *)

Definition tag (nm : string) (cs : list node) : node := Tag nm [] cs.
Definition txt (nm s : string) : node := Tag nm [] [NavigableString s].

(** One category, one sub-category, a definition list with the term
    [ABC123], whose definition holds the link [link], and the term [t3],
    whose definition holds the link [link2]. *)
Definition minimal_page (heading label link t3 link2 : string) : soup :=
  [ txt "h4" heading;
    Tag "div" ["list"]
      [ txt "b" label;
        Tag "div" ["list"]
          [ tag "dl"
              [ txt "dt" "ABC123";
                tag "dd" [ txt "a" link ];
                txt "dt" t3;
                tag "dd" [ txt "a" link2 ] ] ] ] ].

(** The same elements laid flat: the label and its list container follow
    the heading as siblings instead of sitting in a container of the
    heading. *)
Definition flat_page (heading label link t3 link2 : string) : soup :=
  [ txt "h4" heading;
    txt "b" label;
    Tag "div" ["list"]
      [ tag "dl"
          [ txt "dt" "ABC123";
            tag "dd" [ txt "a" link ];
            txt "dt" t3;
            tag "dd" [ txt "a" link2 ] ] ] ].

(** One bold label whose list container holds a definition list with
    another definition list inside its first [dd]: the term [XXXXX] is
    inside both lists, the term [YYYYY] inside the outer one only. *)
Definition nested_page : soup :=
  [ txt "b" "1.1 Label";
    Tag "div" ["list"]
      [ tag "dl"
          [ tag "dd"
              [ tag "dl" [ txt "dt" "XXXXX"; tag "dd" [ txt "a" "Inner" ] ] ];
            txt "dt" "YYYYY";
            tag "dd" [ txt "a" "Outer" ] ] ] ].

Definition minimal_document : soup :=
  minimal_page "1. Metabolism" "1.1 Carbohydrate metabolism"
               "Example Pathway" "XYZ" "Short".

(** A bold label with nothing after it. *)
Definition lonely_label : soup := [ txt "b" "1.1 Carbohydrate metabolism" ].

(** The minimal page with a paragraph between the heading and its list
    container, and another between the label and its list container. *)
Definition detached_page : soup :=
  [ txt "h4" "1. Metabolism";
    txt "p" "Overview";
    Tag "div" ["list"]
      [ txt "b" "1.1 Carbohydrate metabolism";
        txt "p" "Note";
        Tag "div" ["list"]
          [ tag "dl"
              [ txt "dt" "ABC123";
                tag "dd" [ txt "a" "Example Pathway" ] ] ] ] ].

End Extractor.

(* ================================================================== *)
(** ** kegg_paths_plot.py *)
(* ================================================================== *)

Module KeggPlot.
Import PyStr.

(** *** Loading the curated table *)

(** The exceptions the script tells apart: [FileNotFoundError] and any
    other class, kept with its name. *)
Inductive exn : Type :=
| FileNotFoundError (msg : string)
| OtherError (class msg : string).

Inductive result (A : Type) : Type :=
| Ok (a : A)
| Raise (e : exn).
Arguments Ok {A} a.
Arguments Raise {A} e.

(** What the file system holds at a path. *)
Inductive file_state : Type :=
| Missing
| Unreadable (class msg : string)
| Regular (content : string).

Definition filesystem : Type := string -> file_state.

Definition selected_csv : string := "me_1_kegg_selected.csv".

Definition prepare_message : string :=
  "Error: Prepare the file 'me_1_kegg_selected.csv' in excel first.".

Section Loading.

(** The parsed table and the CSV parser of the dataframe library; a parse
    failure is an exception of a class other than [FileNotFoundError]. *)
Variable table : Type.
Variable parse_csv : string -> (string * string) + table.

(** [pd.read_csv(path)] *)
Definition read_csv (fs : filesystem) (path : string) : result table :=
  match fs path with
  | Missing =>
      Raise (FileNotFoundError
               ("[Errno 2] No such file or directory: '" ++ path ++ "'"))
  | Unreadable class msg => Raise (OtherError class msg)
  | Regular content =>
      match parse_csv content with
      | inl (class, msg) => Raise (OtherError class msg)
      | inr t => Ok t
      end
  end.

(** The [try]/[except FileNotFoundError] block around the read. *)
Definition load_selected (fs : filesystem) : result table :=
  match read_csv fs selected_csv with
  | Raise (FileNotFoundError _) => Raise (FileNotFoundError prepare_message)
  | r => r
  end.

End Loading.

End KeggPlot.

(* ================================================================== *)
(** ** go_plots_300724.py *)
(* ================================================================== *)

Module GoPlot.
Import PyStr.

(** A row of the input table. *)
Record go_row : Type := GoRow {
  Term : string;
  Count : Z;
  Pvalue : float;
  group : string
}.

(** A row once the column '-log(Pvalue)' is there. *)
Record plot_row : Type := PlotRow {
  row : go_row;
  neg_log_Pvalue : float
}.

Definition threshold : float := 0x1.999999999999ap-5%float.

(** [df[df['Pvalue'] <= 0.05]] *)
Definition significant (df : list go_row) : list go_row :=
  filter (fun r => PrimFloat.leb (Pvalue r) threshold) df.

(** [lambda x: x[:35] if len(x) > 35 else x] *)
Definition truncate_term (x : string) : string :=
  if Nat.ltb 35 (String.length x) then prefix_n 35 x else x.

Definition with_term (t : string) (r : plot_row) : plot_row :=
  {| row := {| Term := t; Count := Count (row r);
               Pvalue := Pvalue (row r); group := group (row r) |};
     neg_log_Pvalue := neg_log_Pvalue r |}.

(** [df['group'].unique()]: the values in order of first appearance. *)
Fixpoint unique (l : list string) : list string :=
  match l with
  | [] => []
  | g :: r => g :: filter (fun g' => negb (String.eqb g' g)) (unique r)
  end.

(** [nlargest(n, 'Count')]: the rows by falling count, rows of equal count
    in their order in the table, cut after [n].  [insert_desc] puts a row
    before the rows that came after it in the table and do not beat it. *)
Fixpoint insert_desc (r : plot_row) (l : list plot_row) : list plot_row :=
  match l with
  | [] => [r]
  | r' :: l' =>
      if Z.leb (Count (row r')) (Count (row r)) then r :: l
      else r' :: insert_desc r l'
  end.

Definition nlargest (n : nat) (df : list plot_row) : list plot_row :=
  firstn n (fold_right insert_desc [] df).

Section Plot.

(** [np.log10] *)
Variable log10 : float -> float.

(** [df['-log(Pvalue)'] = -np.log10(df['Pvalue'])] *)
Definition add_neg_log (df : list go_row) : list plot_row :=
  map (fun r => {| row := r; neg_log_Pvalue := PrimFloat.opp (log10 (Pvalue r)) |}) df.

(** The table after the filter, the derived column and the truncation. *)
Definition prepared (df : list go_row) : list plot_row :=
  map (fun r => with_term (truncate_term (Term (row r))) r)
      (add_neg_log (significant df)).

(** The bars of each panel: for each group, the top 100 rows by count. *)
Definition panels (df : list go_row) : list (string * list plot_row) :=
  let d := prepared df in
  map (fun g =>
         (g, nlargest 100 (filter (fun r => String.eqb (group (row r)) g) d)))
      (unique (map (fun r => group (row r)) d)).

End Plot.

End GoPlot.

(* ================================================================== *)
(** ** Further definitions: shapes of strings, positions, top rows,
       the merge of the KEGG tables *)
(* ================================================================== *)

Module PyStrShape.
Import PyStr.

Definition first_is_space (s : string) : bool :=
  match s with
  | String c _ => is_space c
  | EmptyString => false
  end.

Fixpoint last_is_space (s : string) : bool :=
  match s with
  | EmptyString => false
  | String c r =>
      match r with
      | EmptyString => is_space c
      | String _ _ => last_is_space r
      end
  end.

(** [x in s] for a character [x]. *)
Fixpoint contains_char (x : ascii) (s : string) : bool :=
  match s with
  | EmptyString => false
  | String c r => Ascii.eqb c x || contains_char x r
  end.

Definition is_digit (c : ascii) : bool :=
  let n := nat_of_ascii c in Nat.leb 48 n && Nat.leb n 57.

Fixpoint all_digits (s : string) : bool :=
  match s with
  | EmptyString => true
  | String c r => is_digit c && all_digits r
  end.

(** [s.startswith(p)] *)
Fixpoint startswith (p s : string) : bool :=
  match p, s with
  | EmptyString, _ => true
  | String a p', String b s' => Ascii.eqb a b && startswith p' s'
  | String _ _, EmptyString => false
  end.

End PyStrShape.

Module Positions.
Import Soup.

(** The node at a position below the contents [l], with the siblings that
    follow it: the position read from the root down. *)
Fixpoint node_at_path (l : list node) (p : list nat)
    : option (node * list node) :=
  match p with
  | [] => None
  | i :: p' =>
      match nth_error l i with
      | None => None
      | Some n =>
          match p' with
          | [] => Some (n, skipn (S i) l)
          | _ :: _ =>
              match n with
              | Tag _ _ cs => node_at_path cs p'
              | _ => None
              end
          end
      end
  end.

End Positions.

Module TopN.

Section ByKey.
Context {A : Type} (key : A -> Z).

(** Put [x] before the first row that does not beat it. *)
Fixpoint insert_by (x : A) (l : list A) : list A :=
  match l with
  | [] => [x]
  | y :: l' => if Z.leb (key y) (key x) then x :: l else y :: insert_by x l'
  end.

(** The rows by falling key, rows of equal key in their order in [l]. *)
Definition sort_desc (l : list A) : list A := fold_right insert_by [] l.

(** [df.nlargest(n, column)] with [key] reading the column.  Rows of
    equal key come in table order here; the library promises that order
    only when [n] is below the number of rows. *)
Definition nlargest_by (n : nat) (l : list A) : list A :=
  firstn n (sort_desc l).

(** [x] does not come after [y] in a table sorted by falling key. *)
Definition not_below (x y : A) : Prop := (key y <= key x)%Z.

End ByKey.

End TopN.

Module KeggMerge.
Import PyStr KeggPlot.

(** [str(n)] of an integer. *)
Definition str_of_int (n : Z) : string :=
  DecimalString.NilZero.string_of_int (Z.to_int n).

(** Whether [str] of each of the [k] integers from [p] on has at most
    5 characters. *)
Fixpoint short_from (k : nat) (p : positive) : bool :=
  match k with
  | O => true
  | S k' =>
      Nat.leb (String.length (str_of_int (Z.pos p))) 5
      && short_from k' (Pos.succ p)
  end.

(** [df2['Pathway ID'].astype(str).str.zfill(5)] on one cell of the
    database table, whose 'Pathway ID' column is read as integers. *)
Definition db_pathway_id (n : Z) : string := zfill 5 (str_of_int n).

(** *** Cleaning of the 'Pathway ID' column of the enrichment table *)

(** A cell of the column as [pd.read_csv] hands it over: an integer where
    the column holds integers only (a leading zero is gone by then), a
    string otherwise. *)
Inductive id_cell : Type :=
| IntID (n : Z)
| StrID (s : string).

(** [me_1_kegg['Pathway ID'].replace('ko', '', regex=True, inplace=True)],
    a call on the column picked out of the table.  [copy_on_write] says
    whether the dataframe library runs with copy-on-write (pandas 3 and
    later): then the call changes a temporary and the column of the table
    stays as it is; without it (pandas 2) the column is changed.  The
    replacement reads string cells only. *)
Definition replace_ko (copy_on_write : bool) (column : list id_cell)
    : list id_cell :=
  if copy_on_write then column
  else map (fun c => match c with
                     | StrID s => StrID (sub_ko s)
                     | IntID n => IntID n
                     end) column.

(** [.astype(str)] on one cell. *)
Definition astype_str (c : id_cell) : string :=
  match c with
  | IntID n => str_of_int n
  | StrID s => s
  end.

(** [me_1_kegg['Pathway ID'].astype(str).str.zfill(5)] *)
Definition zfill_5 (column : list id_cell) : list string :=
  map (fun c => zfill 5 (astype_str c)) column.

(** Lines 49 and 51 together. *)
Definition clean_pathway_ids (copy_on_write : bool) (column : list id_cell)
    : list string :=
  zfill_5 (replace_ko copy_on_write column).

(** The same on one cell. *)
Definition clean_pathway_id (copy_on_write : bool) (c : id_cell) : string :=
  match c with
  | StrID s => zfill 5 (if copy_on_write then s else sub_ko s)
  | IntID n => zfill 5 (str_of_int n)
  end.

Section Tables.

(** A row is its 'Pathway ID' with the rest of its columns: [A] for the
    enrichment table, [B] for the database. *)
Variables A B : Type.

(** Lines 49 and 51 on the enrichment table. *)
Definition clean_enrichment (copy_on_write : bool)
    (me_1_kegg : list (id_cell * A)) : list (string * A) :=
  map (fun r => (clean_pathway_id copy_on_write (fst r), snd r)) me_1_kegg.

(** Line 62 on the database table. *)
Definition clean_db (kegg_db : list (Z * B)) : list (string * B) :=
  map (fun r => (db_pathway_id (fst r), snd r)) kegg_db.

(** [pd.merge(df1, df2, on='Pathway ID', how='inner')]: every pair of a
    row of [df1] and a row of [df2] with the same 'Pathway ID'. *)
Definition merge_inner (df1 : list (string * A)) (df2 : list (string * B))
    : list (string * (A * B)) :=
  flat_map
    (fun l =>
       map (fun r => (fst l, (snd l, snd r)))
           (filter (fun r => String.eqb (fst l) (fst r)) df2))
    df1.

(** The merged table of the script, before it is sorted and saved. *)
Definition merged_df (copy_on_write : bool)
    (me_1_kegg : list (id_cell * A)) (kegg_db : list (Z * B))
    : list (string * (A * B)) :=
  merge_inner (clean_enrichment copy_on_write me_1_kegg) (clean_db kegg_db).

(** [me_1_kegg_select.nlargest(50, 'No. of Seqs')], a row of the curated
    table being its 'No. of Seqs' with the rest of its columns. *)
Definition top_pathways (me_1_kegg_select : list (Z * A)) : list (Z * A) :=
  TopN.nlargest_by fst 50 me_1_kegg_select.

End Tables.

End KeggMerge.

Module GoGroups.
Import GoPlot.

(** The column [nlargest(100, 'Count')] goes by. *)
Definition count_key (r : plot_row) : Z := Count (row r).

Section Groups.
Context {A : Type} (grp : A -> string).


End Groups.

End GoGroups.

(* ================================================================== *)
(** ** Virus copies script: the error bars *)
(* ================================================================== *)

Module VirusCopies.

(** [pd.notna] on a float. *)
Definition notna (x : float) : bool := negb (PrimFloat.is_nan x).

(** [np.where(cond, a, b)] with arrays [cond] and [a] of one length and
    the scalar [b]. *)
Definition np_where (cond : list bool) (a : list float) (b : float)
    : list float :=
  map (fun ca : bool * float => if fst ca then snd ca else b)
      (combine cond a).

(** [np.where(pd.notna(column), np.random.rand(len(column)) * scale,
    np.nan)], the draws of the generator being [draws]. *)
Definition error_bars (scale : float) (column draws : list float)
    : list float :=
  np_where (map notna column) (map (fun u => PrimFloat.mul u scale) draws)
           PrimFloat.nan.

End VirusCopies.

(* ================================================================== *)
(** * Properties *)
(* ================================================================== *)

(** ** Strings *)

Module PyStrFacts.
Import PyStr.

Lemma append_empty_r (s : string) : (s ++ "")%string = s.
Proof. induction s as [|c s IH]; simpl; [reflexivity | now rewrite IH]. Qed.

Lemma append_assoc (a b c : string) :
  ((a ++ b) ++ c)%string = (a ++ (b ++ c))%string.
Proof. induction a as [|x a IH]; simpl; [reflexivity | now rewrite IH]. Qed.

Lemma length_append (a b : string) :
  String.length (a ++ b) = String.length a + String.length b.
Proof. induction a as [|x a IH]; simpl; [reflexivity | now rewrite IH]. Qed.

Lemma lstrip_length (s : string) : String.length (lstrip s) <= String.length s.
Proof.
  induction s as [|c s IH]; simpl; [lia|].
  destruct (is_space c); simpl; lia.
Qed.

Lemma rstrip_length (s : string) : String.length (rstrip s) <= String.length s.
Proof.
  induction s as [|c s IH]; simpl; [lia|].
  destruct (rstrip s) as [|c' r'].
  - destruct (is_space c); simpl in *; lia.
  - simpl in *; lia.
Qed.

Lemma strip_length (s : string) : String.length (strip s) <= String.length s.
Proof.
  unfold strip. etransitivity; [apply rstrip_length | apply lstrip_length].
Qed.

Lemma truthy_length (s : string) : truthy s = Nat.ltb 0 (String.length s).
Proof. destruct s; reflexivity. Qed.

End PyStrFacts.

(** ** The tree queries *)

Module SoupFacts.
Import PyStr Soup PyStrFacts.

(** Induction over a node and its contents together. *)
Section NodeInd.
Variable P : node -> Prop.
Variable Q : list node -> Prop.
Hypothesis HS : forall s, P (NavigableString s).
Hypothesis HC : forall s, P (Comment s).
Hypothesis HT : forall nm cls cs, Q cs -> P (Tag nm cls cs).
Hypothesis HN : Q [].
Hypothesis HK : forall c r, P c -> Q r -> Q (c :: r).

Fixpoint node_forest_ind (n : node) : P n :=
  match n with
  | NavigableString s => HS s
  | Comment s => HC s
  | Tag nm cls cs =>
      HT nm cls cs
        ((fix contents_ind (l : list node) : Q l :=
            match l with
            | [] => HN
            | c :: r => HK c r (node_forest_ind c) (contents_ind r)
            end) cs)
  end.

Lemma forest_ind (l : list node) : Q l.
Proof. induction l as [|c r IH]; [exact HN | apply HK; [apply node_forest_ind | exact IH]]. Qed.
End NodeInd.

Lemma node_descendants_Tag p nm cls cs :
  node_descendants p (Tag nm cls cs) = walk p 0 cs.
Proof.
  simpl. generalize 0. induction cs as [|c r IH]; intros i; [reflexivity|].
  simpl. now rewrite IH.
Qed.

Lemma text_txt nm cls s : text (Tag nm cls [NavigableString s]) = s.
Proof. simpl. apply append_empty_r. Qed.

(** What [find_next_sibling] finds is the first sibling the filter
    accepts, wherever it is. *)
Lemma first_match_skip P pp i pre d post :
  Forall (fun n => P n = false) pre -> P d = true ->
  first_match P pp i (pre ++ d :: post)
  = Some (Element pp (i + List.length pre) d post).
Proof.
  intros Hpre Hd. revert i.
  induction Hpre as [|n pre Hn _ IH]; intros i; simpl.
  - rewrite Hd. now rewrite Nat.add_0_r.
  - rewrite Hn, IH. do 2 f_equal. lia.
Qed.

Lemma first_match_none P pp i l :
  Forall (fun n => P n = false) l -> first_match P pp i l = None.
Proof.
  intros H. revert i. induction H as [|n l Hn _ IH]; intros i; simpl;
    [reflexivity | now rewrite Hn].
Qed.

Lemma first_match_Some P pp i l d :
  first_match P pp i l = Some d ->
  exists pre post,
    l = pre ++ elem d :: post /\ Forall (fun n => P n = false) pre /\
    P (elem d) = true /\
    d = Element pp (i + List.length pre) (elem d) post.
Proof.
  revert i. induction l as [|c r IH]; intros i; simpl; [discriminate|].
  destruct (P c) eqn:Hc.
  - intros [= <-]. exists [], r. simpl. rewrite Nat.add_0_r. auto.
  - intros H. destruct (IH _ H) as (pre & post & -> & Hpre & Hd & Heq).
    exists (c :: pre), post. simpl. repeat split; auto.
    rewrite Heq at 1. f_equal. lia.
Qed.

Lemma first_match_in_walk P p i l d :
  first_match P p i l = Some d -> In d (walk p i l).
Proof.
  revert i. induction l as [|c r IH]; intros i; simpl; [discriminate|].
  destruct (P c).
  - intros [= <-]. now left.
  - intros H. right. apply in_or_app. right. now apply IH.
Qed.

(** Below an element of the walk, everything is in the walk. *)
Lemma walk_closed_descendants :
  forall l p i e, In e (walk p i l) -> incl (descendants e) (walk p i l).
Proof.
  apply (forest_ind
    (fun n => forall p e, In e (node_descendants p n) ->
                          incl (descendants e) (node_descendants p n))
    (fun l => forall p i e, In e (walk p i l) ->
                            incl (descendants e) (walk p i l))).
  - intros s p e [].
  - intros s p e [].
  - intros nm cls cs IH p e. rewrite node_descendants_Tag. apply IH.
  - intros p i e [].
  - intros c r IHc IHr p i e. simpl. intros [<- | H].
    + unfold descendants, path. simpl.
      intros x Hx. right. apply in_or_app. now left.
    + apply in_app_or in H. destruct H as [H | H].
      * intros x Hx. right. apply in_or_app. left. now apply (IHc _ _ H).
      * intros x Hx. right. apply in_or_app. right. now apply (IHr _ _ _ H).
Qed.

(** The siblings of an element of the walk are in the walk. *)
Lemma walk_closed_siblings P :
  forall l p i e d, In e (walk p i l) ->
    find_next_sibling P e = Some d -> In d (walk p i l).
Proof.
  apply (forest_ind
    (fun n => forall p e d, In e (node_descendants p n) ->
                find_next_sibling P e = Some d -> In d (node_descendants p n))
    (fun l => forall p i e d, In e (walk p i l) ->
                find_next_sibling P e = Some d -> In d (walk p i l))).
  - intros s p e d [].
  - intros s p e d [].
  - intros nm cls cs IH p e d. rewrite node_descendants_Tag. apply IH.
  - intros p i e d [].
  - intros c r IHc IHr p i e d. simpl. intros [<- | H] Hd.
    + right. apply in_or_app. right.
      unfold find_next_sibling in Hd. simpl in Hd.
      now apply first_match_in_walk in Hd.
    + apply in_app_or in H. right. apply in_or_app. destruct H as [H | H].
      * left. now apply (IHc _ _ _ H).
      * right. now apply (IHr _ _ _ _ H).
Qed.

Lemma find_all_in nm e d : In d (find_all nm e) ->
  In d (descendants e) /\ is_tag nm (elem d) = true.
Proof. unfold find_all. intros H. now apply filter_In in H. Qed.

Lemma soup_find_all_in nm doc d : In d (soup_find_all nm doc) <->
  In d (soup_descendants doc) /\ is_tag nm (elem d) = true.
Proof. unfold soup_find_all. apply filter_In. Qed.

(** [find_all] below an element of the document finds elements that
    [find_all] on the document finds too. *)
Lemma find_all_below nm doc e d :
  In e (soup_descendants doc) -> In d (find_all nm e) ->
  In d (soup_find_all nm doc).
Proof.
  intros He Hd. apply find_all_in in Hd. destruct Hd as [Hd Ht].
  apply soup_find_all_in. split; [|exact Ht].
  now apply (walk_closed_descendants _ _ _ _ He).
Qed.

End SoupFacts.

(** ** The extractor *)

Module ExtractorFacts.
Import PyStr Soup Extractor PyStrFacts SoupFacts.

(** A loop whose body only appends leaves [data] in front of what its
    iterations append, in the order of the iterations. *)
Lemma fold_left_appends {A B : Type} (f : list B -> A -> list B) (l : list A) :
  (forall data x, f data x = data ++ f [] x) ->
  forall data, fold_left f l data = data ++ flat_map (f []) l.
Proof.
  intros Hf. induction l as [|x l IH]; intros data; simpl.
  - now rewrite app_nil_r.
  - rewrite IH, (Hf data x). now rewrite <- app_assoc.
Qed.

Lemma process_dt_appends c s data dt :
  process_dt c s data dt = data ++ process_dt c s [] dt.
Proof.
  unfold process_dt.
  destruct (truthy _ && Nat.leb 5 _); [|now rewrite app_nil_r].
  destruct (find_next_sibling _ dt) as [dd|]; [|now rewrite app_nil_r].
  destruct (find "a" dd); [reflexivity | now rewrite app_nil_r].
Qed.

Lemma extract_pathways_appends dls c s data :
  extract_pathways dls c s data = data ++ flat_map (dl_records c s) dls.
Proof.
  unfold extract_pathways.
  rewrite (fold_left_appends
             (fun data dl => fold_left (process_dt c s) (find_all "dt" dl) data)).
  - f_equal. apply flat_map_ext. intros dl.
    now rewrite (fold_left_appends _ _ (process_dt_appends c s)).
  - intros d dl.
    now rewrite !(fold_left_appends _ _ (process_dt_appends c s)).
Qed.

Lemma process_b_appends c data b :
  process_b c data b = data ++ process_b c [] b.
Proof.
  unfold process_b. destruct (find_next_sibling div_list b) as [d|].
  - now rewrite !(extract_pathways_appends _ _ _ _).
  - now rewrite app_nil_r.
Qed.

Lemma process_category_appends data h :
  process_category data h = data ++ process_category [] h.
Proof.
  unfold process_category. destruct (find_next_sibling div_list h) as [d|].
  - now rewrite !(fold_left_appends _ _ (process_b_appends _)).
  - now rewrite app_nil_r.
Qed.

Lemma categories_loop_appends doc data :
  categories_loop doc data
  = data ++ flat_map (process_category []) (soup_find_all "h4" doc).
Proof. apply fold_left_appends, process_category_appends. Qed.

Lemma additional_loop_appends doc data :
  additional_loop doc data
  = data ++ flat_map (process_b "N/A" []) (soup_find_all "b" doc).
Proof. apply fold_left_appends, process_b_appends. Qed.

Lemma run_two_passes doc :
  run doc = categories_loop doc [] ++ additional_loop doc [].
Proof.
  unfold run. rewrite additional_loop_appends.
  now rewrite (additional_loop_appends doc []).
Qed.

End ExtractorFacts.

(** ** What the extractor emits *)

Module ExtractorSpec.
Import PyStr Soup Extractor PyStrFacts SoupFacts ExtractorFacts.

Ltac eval_query q :=
  match goal with
  | |- context [q ?a ?b] =>
      let v := eval vm_compute in (q a b) in change (q a b) with v
  end.

Lemma process_dt_short c s data dt :
  String.length (text (elem dt)) < 5 -> process_dt c s data dt = data.
Proof.
  intros H. unfold process_dt.
  pose proof (strip_length (text (elem dt))) as Hs.
  destruct (Nat.leb 5 _) eqn:E.
  - apply Nat.leb_le in E. lia.
  - now rewrite andb_false_r.
Qed.

(** What a record of one term looks like. *)
Lemma process_dt_In c s dt r :
  In r (process_dt c s [] dt) ->
  5 <= String.length (strip (text (elem dt))) /\
  exists dd a,
    find_next_sibling (is_tag "dd") dt = Some dd /\ find "a" dd = Some a /\
    r = Row c s (">" ++ strip (text (elem dt)) ++ " <") (strip (text (elem a))).
Proof.
  unfold process_dt.
  destruct (truthy _) eqn:Ht; [|intros []].
  destruct (Nat.leb 5 _) eqn:E; [|intros []]. apply Nat.leb_le in E.
  destruct (find_next_sibling _ dt) as [dd|]; [|intros []].
  destruct (find "a" dd) as [a|] eqn:Ha; [|intros []].
  simpl. intros [<- | []]. split; [exact E|]. now exists dd, a.
Qed.

Lemma process_b_In c b r :
  In r (process_b c [] b) ->
  exists d dl dt,
    find_next_sibling div_list b = Some d /\ In dl (find_all "dl" d) /\
    In dt (find_all "dt" dl) /\ In r (process_dt c (name_of b) [] dt).
Proof.
  unfold process_b. destruct (find_next_sibling div_list b) as [d|]; [|intros []].
  rewrite extract_pathways_appends. simpl. intros H.
  apply in_flat_map in H. destruct H as (dl & Hdl & H).
  apply in_flat_map in H. destruct H as (dt & Hdt & H).
  now exists d, dl, dt.
Qed.

Lemma process_category_In h r :
  In r (process_category [] h) ->
  exists d b,
    find_next_sibling div_list h = Some d /\ In b (find_all "b" d) /\
    In r (process_b (name_of h) [] b).
Proof.
  unfold process_category.
  destruct (find_next_sibling div_list h) as [d|]; [|intros []].
  rewrite (fold_left_appends _ _ (process_b_appends _)). simpl. intros H.
  apply in_flat_map in H. destruct H as (b & Hb & H). now exists d, b.
Qed.

(** The same label gives the same records under any category name. *)
Lemma process_b_any_category c c' b r :
  In r (process_b c [] b) ->
  In (Row c' (Sub_category r) (Pathway_ID r) (Pathway_Name r))
     (process_b c' [] b).
Proof.
  intros H. apply process_b_In in H.
  destruct H as (d & dl & dt & Hd & Hdl & Hdt & H).
  unfold process_b. rewrite Hd, extract_pathways_appends. simpl.
  apply in_flat_map. exists dl. split; [exact Hdl|].
  apply in_flat_map. exists dt. split; [exact Hdt|].
  pose proof (process_dt_In _ _ _ _ H) as (Hlen & dd & a & Hdd & Ha & ->).
  unfold process_dt. rewrite Hdd, Ha.
  apply Nat.leb_le in Hlen. rewrite Hlen, truthy_length.
  apply Nat.leb_le in Hlen.
  replace (Nat.ltb 0 _) with true by (symmetry; apply Nat.ltb_lt; lia).
  simpl. now left.
Qed.

Lemma minimal_label_records c pp i l link t3 link2 :
  String.length t3 = 3 ->
  process_b c []
    (Element pp i (txt "b" l)
       [Tag "div" ["list"]
          [tag "dl" [txt "dt" "ABC123"; tag "dd" [txt "a" link];
                     txt "dt" t3; tag "dd" [txt "a" link2]]]])
  = [Row c (name_of_text l) ">ABC123 <" (strip link)].
Proof.
  intros H3. unfold process_b, name_of, txt, tag.
  cbn [elem]. rewrite text_txt. fold (name_of_text l).
  unfold find_next_sibling. cbn [next_siblings parent_path index].
  change (first_match div_list pp (S i) ?x)
    with (Some (Element pp (S i) (hd (Comment "") x) [])).
  cbn [hd]. rewrite extract_pathways_appends. cbn [app].
  unfold dl_records, find_all, descendants. cbn [elem].
  rewrite node_descendants_Tag.
  cbn -[strip name_of_text process_dt].
  rewrite (process_dt_short _ _ [] (Element _ 2 _ _))
    by (cbn [elem]; rewrite text_txt; lia).
  unfold process_dt. cbn [elem]. rewrite text_txt.
  change (strip "ABC123") with "ABC123".
  cbn -[strip name_of_text]. now rewrite append_empty_r.
Qed.

(** C1, as the code has it: the minimal page in the layout the extractor
    expects (one category heading followed by a list container that holds
    one bold label followed by a list container, whose definition list
    has the linked term [ABC123] and a term of three characters) gives two
    rows, not one: the category-scoped pass emits the row of [ABC123]
    under the category of the heading, and the whole-document pass emits
    it again under the category [N/A]; both carry the Pathway ID
    [>ABC123 <], and the short term gives no row.  On the page where the
    label and its container follow the heading as siblings, with no list
    container of the heading around them, a full run gives one row, and
    that row has the category [N/A]. *)
Theorem minimal_page_rows (heading label link t3 link2 : string) :
  String.length t3 = 3 ->
  run (minimal_page heading label link t3 link2) =
    [ Row (name_of_text heading) (name_of_text label) ">ABC123 <" (strip link);
      Row "N/A" (name_of_text label) ">ABC123 <" (strip link) ]
  /\ run (flat_page heading label link t3 link2) =
    [ Row "N/A" (name_of_text label) ">ABC123 <" (strip link) ].
Proof.
  intros H3. split.
  - rewrite run_two_passes, categories_loop_appends, additional_loop_appends.
    cbn [app].
    eval_query soup_find_all. eval_query soup_find_all.
    cbn [flat_map app]. rewrite !app_nil_r.
    pose proof (fun c =>
      minimal_label_records c [1] 0 label link t3 link2 H3) as Hb.
    unfold txt, tag in Hb. rewrite Hb.
    unfold process_category, name_of. cbn [elem]. rewrite text_txt.
    fold (name_of_text heading).
    eval_query find_next_sibling. cbv beta iota. eval_query find_all.
    cbn [fold_left]. now rewrite Hb.
  - rewrite run_two_passes, categories_loop_appends, additional_loop_appends.
    cbn [app].
    eval_query soup_find_all. eval_query soup_find_all.
    cbn [flat_map app]. rewrite !app_nil_r.
    pose proof (fun c =>
      minimal_label_records c [] 1 label link t3 link2 H3) as Hb.
    unfold txt, tag in Hb. rewrite Hb.
    unfold process_category.
    eval_query find_next_sibling. cbv beta iota. eval_query find_all.
    reflexivity.
Qed.

Lemma minimal_page_rows_witness :
  String.length "XYZ" = 3 /\
  run minimal_document =
    [ Row "Metabolism" "Carbohydrate metabolism" ">ABC123 <" "Example Pathway";
      Row "N/A" "Carbohydrate metabolism" ">ABC123 <" "Example Pathway" ].
Proof.
  split; [reflexivity|].
  exact (proj1 (minimal_page_rows "1. Metabolism" "1.1 Carbohydrate metabolism"
                  "Example Pathway" "XYZ" "Short" eq_refl)).
Defined.

(** C1 as stated fails: on the minimal document a full run does not
    export exactly one row. *)
Lemma minimal_document_not_one_row :
  List.length (run minimal_document) = 2
  /\ ~ (exists r, run minimal_document = [r] /\ Pathway_ID r = ">ABC123 <").
Proof.
  split; [reflexivity|].
  intros (r & H & _). vm_compute in H. discriminate H.
Qed.

(** C3: in [extract_pathways], a term whose stripped text is empty or
    shorter than 5 characters, or that has no following [dd] sibling, or
    whose [dd] holds no link, leaves [data] as it was; any other term
    appends exactly one record; and the call goes through every term of
    every definition list, whatever the earlier ones did. *)
Theorem extract_pathways_pairs (category_name subcategory_name : string) :
  (forall data dt,
      strip (text (elem dt)) = "" \/
      String.length (strip (text (elem dt))) < 5 \/
      find_next_sibling (is_tag "dd") dt = None \/
      (exists dd, find_next_sibling (is_tag "dd") dt = Some dd /\
                  find "a" dd = None) ->
      process_dt category_name subcategory_name data dt = data)
  /\ (forall data dt dd a,
      5 <= String.length (strip (text (elem dt))) ->
      find_next_sibling (is_tag "dd") dt = Some dd ->
      find "a" dd = Some a ->
      process_dt category_name subcategory_name data dt
      = data ++ [ Row category_name subcategory_name
                      (">" ++ strip (text (elem dt)) ++ " <")
                      (strip (text (elem a))) ])
  /\ (forall dls data,
      extract_pathways dls category_name subcategory_name data
      = data ++ flat_map
                  (fun dl =>
                     flat_map (process_dt category_name subcategory_name [])
                              (find_all "dt" dl))
                  dls).
Proof.
  split; [|split].
  - intros data dt H. unfold process_dt.
    destruct H as [H | [H | [H | (dd & Hdd & Ha)]]].
    + now rewrite H.
    + apply Nat.leb_gt in H. rewrite H. now rewrite andb_false_r.
    + rewrite H. now destruct (_ && _).
    + rewrite Hdd, Ha. now destruct (_ && _).
  - intros data dt dd a Hlen Hdd Ha. unfold process_dt.
    rewrite Hdd, Ha, truthy_length.
    replace (Nat.ltb 0 _) with true by (symmetry; apply Nat.ltb_lt; lia).
    apply Nat.leb_le in Hlen. now rewrite Hlen.
  - intros dls data. apply extract_pathways_appends.
Qed.

Lemma extract_pathways_pairs_witness :
  process_dt "C" "S" []
    (Element [] 0 (txt "dt" "T1") [tag "dd" [txt "a" "Example Pathway"]]) = []
  /\ process_dt "C" "S" []
    (Element [] 0 (txt "dt" "T0001") [tag "dd" [txt "a" "Example Pathway"]])
     = [ Row "C" "S" ">T0001 <" "Example Pathway" ].
Proof.
  destruct (extract_pathways_pairs "C" "S") as (Hskip & Hone & _).
  split.
  - apply Hskip. right; left. vm_compute. lia.
  - apply (Hone []
             (Element [] 0 (txt "dt" "T0001")
                      [tag "dd" [txt "a" "Example Pathway"]])
             (Element [] 1 (tag "dd" [txt "a" "Example Pathway"]) [])
             (Element [1] 0 (txt "a" "Example Pathway") [])).
    + vm_compute. lia.
    + reflexivity.
    + reflexivity.
Defined.

(** C2 as stated fails: a bold label with no list container after it is
    in the document, and the whole-document pass emits nothing for it. *)
Lemma lonely_label_no_record :
  (exists b, In b (soup_find_all "b" lonely_label)) /\
  ~ (exists r, In r (additional_loop lonely_label
                       (categories_loop lonely_label [])) /\
               Category r = "N/A").
Proof.
  split.
  - eexists. vm_compute. left. reflexivity.
  - intros (r & H & _). vm_compute in H. exact H.
Qed.

(** C4 as stated fails in one direction: a heading whose text is [N/A]
    supplies that text as the category, so the category-scoped pass, on
    its own, emits a record whose Category is [N/A]. *)
Lemma heading_named_NA :
  categories_loop
    (minimal_page "N/A" "1.1 Label" "Example Pathway" "XYZ" "Short") []
  = [ Row "N/A" "Label" ">ABC123 <" "Example Pathway" ]
  /\ map name_of
       (soup_find_all "h4"
          (minimal_page "N/A" "1.1 Label" "Example Pathway" "XYZ" "Short"))
     = [ "N/A" ].
Proof. split; vm_compute; reflexivity. Qed.

End ExtractorSpec.

(** ** Document order *)

Module DocumentOrder.
Import PyStr Soup SoupFacts.

Lemma path_ltb_extend p j r : path_ltb p (p ++ j :: r) = true.
Proof.
  induction p as [|i p IH]; simpl; [reflexivity|].
  rewrite Nat.eqb_refl, IH. apply orb_true_r.
Qed.

Lemma path_ltb_later p i r j r' :
  i < j -> path_ltb (p ++ i :: r) (p ++ j :: r') = true.
Proof.
  intros Hij. induction p as [|k p IH]; simpl.
  - apply Nat.ltb_lt in Hij. now rewrite Hij.
  - rewrite Nat.eqb_refl, IH. apply orb_true_r.
Qed.

Lemma path_ltb_irrefl p : path_ltb p p = false.
Proof.
  induction p as [|i p IH]; simpl; [reflexivity|].
  now rewrite Nat.ltb_irrefl, IH, andb_false_r.
Qed.

(** Where the elements of a walk are. *)
Lemma walk_paths :
  forall l p i e, In e (walk p i l) ->
    exists j r, i <= j /\ path e = p ++ j :: r.
Proof.
  apply (forest_ind
    (fun n => forall q e, In e (node_descendants q n) ->
                exists j r, path e = q ++ j :: r)
    (fun l => forall p i e, In e (walk p i l) ->
                exists j r, i <= j /\ path e = p ++ j :: r)).
  - intros s q e [].
  - intros s q e [].
  - intros nm cls cs IH q e. rewrite node_descendants_Tag. intros H.
    destruct (IH _ _ _ H) as (j & r & _ & Hp). now exists j, r.
  - intros p i e [].
  - intros c r IHc IHr p i e. simpl. intros [<- | H].
    + exists i, []. split; [lia | reflexivity].
    + apply in_app_or in H. destruct H as [H | H].
      * destruct (IHc _ _ H) as (j & t & Hp). exists i, (j :: t).
        split; [lia|]. rewrite Hp. now rewrite <- app_assoc.
      * destruct (IHr _ _ _ H) as (j & t & Hj & Hp). exists j, t.
        split; [lia | exact Hp].
Qed.

Lemma node_descendants_paths n q e :
  In e (node_descendants q n) -> exists j r, path e = q ++ j :: r.
Proof.
  destruct n as [s|s|nm cls cs]; try (intros []).
  rewrite node_descendants_Tag. intros H.
  destruct (walk_paths _ _ _ _ H) as (j & r & _ & Hp). now exists j, r.
Qed.

Section Sorted.
Context {A : Type} (R : A -> A -> Prop).

Lemma StronglySorted_app (l1 l2 : list A) :
  StronglySorted R l1 -> StronglySorted R l2 ->
  (forall a b, In a l1 -> In b l2 -> R a b) ->
  StronglySorted R (l1 ++ l2).
Proof.
  intros H1 H2 H12. induction H1 as [|a l1 H1 IH Ha]; simpl; [exact H2|].
  constructor.
  - apply IH. intros x y Hx Hy. apply H12; [now right | exact Hy].
  - apply Forall_app. split; [exact Ha|].
    apply Forall_forall. intros y Hy. apply H12; [now left | exact Hy].
Qed.

Lemma StronglySorted_filter (f : A -> bool) (l : list A) :
  StronglySorted R l -> StronglySorted R (filter f l).
Proof.
  induction 1 as [|a l Hl IH Ha]; simpl; [constructor|].
  destruct (f a); [|exact IH]. constructor; [exact IH|].
  apply Forall_forall. intros y Hy. apply filter_In in Hy.
  exact (proj1 (Forall_forall _ _) Ha y (proj1 Hy)).
Qed.

Lemma StronglySorted_NoDup (l : list A) :
  (forall a, ~ R a a) -> StronglySorted R l -> NoDup l.
Proof.
  intros Hirr. induction 1 as [|a l Hl IH Ha]; constructor; [|exact IH].
  intros Hin. exact (Hirr a (proj1 (Forall_forall _ _) Ha a Hin)).
Qed.
End Sorted.

(** Iterations of a loop nest come in the order of the outer loop, and
    within one outer iteration in the order of the inner loop. *)
Lemma StronglySorted_pairs {A B : Type} (RA : A -> A -> Prop)
    (RB : B -> B -> Prop) (f : A -> list B) (l : list A) :
  StronglySorted RA l -> (forall a, In a l -> StronglySorted RB (f a)) ->
  StronglySorted (slexprod A B RA RB) (flat_map (fun a => map (pair a) (f a)) l).
Proof.
  intros Hl Hf. induction Hl as [|a l Hl IH Ha]; simpl; [constructor|].
  apply StronglySorted_app.
  - assert (Hfa : StronglySorted RB (f a)) by (apply Hf; now left).
    induction Hfa as [|b bs _ IHb Hb]; simpl; constructor; [exact IHb|].
    apply Forall_forall. intros [a' b'] Hin. apply in_map_iff in Hin.
    destruct Hin as (y & [= <- <-] & Hy). apply right_slex.
    exact (proj1 (Forall_forall _ _) Hb y Hy).
  - apply IH. intros x Hx. apply Hf. now right.
  - intros [x y] [x' y'] Hx Hx'. apply in_map_iff in Hx.
    destruct Hx as (b & [= <- <-] & _).
    apply in_flat_map in Hx'. destruct Hx' as (a' & Ha' & Hx').
    apply in_map_iff in Hx'. destruct Hx' as (b' & [= <- <-] & _).
    apply left_slex. exact (proj1 (Forall_forall _ _) Ha a' Ha').
Qed.

(** A walk lists its elements in document order. *)
Lemma walk_sorted : forall l p i, StronglySorted before (walk p i l).
Proof.
  apply (forest_ind
    (fun n => forall q, StronglySorted before (node_descendants q n))
    (fun l => forall p i, StronglySorted before (walk p i l))).
  - intros s q. constructor.
  - intros s q. constructor.
  - intros nm cls cs IH q. rewrite node_descendants_Tag. apply IH.
  - intros p i. constructor.
  - intros c r IHc IHr p i. simpl. constructor.
    + apply StronglySorted_app; [apply IHc | apply IHr |].
      intros a b Ha Hb. unfold before.
      destruct (node_descendants_paths _ _ _ Ha) as (j & t & ->).
      destruct (walk_paths _ _ _ _ Hb) as (j' & t' & Hj & ->).
      rewrite <- app_assoc. simpl. apply path_ltb_later. lia.
    + apply Forall_app. split; apply Forall_forall; intros x Hx; unfold before.
      * destruct (node_descendants_paths _ _ _ Hx) as (j & t & ->).
        apply path_ltb_extend.
      * destruct (walk_paths _ _ _ _ Hx) as (j' & t' & Hj & ->).
        unfold path. simpl. apply path_ltb_later. lia.
Qed.

Lemma descendants_sorted e : StronglySorted before (descendants e).
Proof.
  unfold descendants. destruct (elem e) as [s|s|nm cls cs]; try constructor.
  rewrite node_descendants_Tag. apply walk_sorted.
Qed.

Lemma find_all_sorted nm e : StronglySorted before (find_all nm e).
Proof. apply StronglySorted_filter, descendants_sorted. Qed.

Lemma soup_find_all_sorted nm doc : StronglySorted before (soup_find_all nm doc).
Proof. apply StronglySorted_filter, walk_sorted. Qed.

Lemma before_irrefl e : ~ before e e.
Proof. unfold before. now rewrite path_ltb_irrefl. Qed.

End DocumentOrder.

(** ** The traversal of the extractor *)

Module Traversal.
Import PyStr Soup Extractor PyStrFacts SoupFacts ExtractorFacts DocumentOrder.

Lemma flat_map_pairs {A B C : Type} (f : A -> list B) (g : A * B -> list C)
    (l : list A) :
  flat_map g (flat_map (fun a => map (pair a) (f a)) l)
  = flat_map (fun a => flat_map (fun b => g (a, b)) (f a)) l.
Proof.
  induction l as [|a l IH]; simpl; [reflexivity|].
  rewrite flat_map_app, IH. f_equal.
  induction (f a) as [|b bs IHb]; simpl; [reflexivity | now rewrite IHb].
Qed.

Lemma length_flat_map_filter {A B : Type} (f : A -> list B) (p : A -> bool)
    (l : list A) :
  (forall x, List.length (f x) = if p x then 1 else 0) ->
  List.length (flat_map f l) = List.length (filter p l).
Proof.
  intros Hf. induction l as [|x l IH]; simpl; [reflexivity|].
  rewrite length_app, Hf, IH. now destruct (p x).
Qed.

Lemma process_dt_length c s dt :
  List.length (process_dt c s [] dt) = if valid_term dt then 1 else 0.
Proof.
  unfold process_dt, valid_term.
  destruct (truthy _ && Nat.leb 5 _); [|reflexivity].
  destruct (find_next_sibling _ dt) as [dd|]; [|reflexivity].
  now destruct (find "a" dd).
Qed.

Lemma process_b_visits c b :
  process_b c [] b
  = flat_map (fun v => process_dt c (name_of b) [] (snd v)) (label_visits b).
Proof.
  unfold process_b, label_visits.
  destruct (find_next_sibling div_list b) as [d|]; [|reflexivity].
  rewrite extract_pathways_appends. unfold term_visits.
  now rewrite flat_map_pairs.
Qed.

Lemma labels_records_visits c labels :
  flat_map (process_b c []) labels
  = flat_map (fun v => process_dt c (name_of (fst v)) [] (snd (snd v)))
             (labels_visits labels).
Proof.
  unfold labels_visits. rewrite flat_map_pairs.
  apply flat_map_ext. intros b. apply process_b_visits.
Qed.

Lemma process_category_visits h :
  process_category [] h
  = flat_map (fun v => process_dt (name_of h) (name_of (fst v)) []
                                  (snd (snd v)))
             (heading_visits h).
Proof.
  unfold process_category, heading_visits.
  destruct (find_next_sibling div_list h) as [d|]; [|reflexivity].
  rewrite (fold_left_appends _ _ (process_b_appends _)).
  apply labels_records_visits.
Qed.

Lemma categories_loop_visits doc data :
  categories_loop doc data
  = data ++ flat_map category_visit_records (category_visits doc).
Proof.
  rewrite categories_loop_appends. f_equal.
  unfold category_visits. rewrite flat_map_pairs.
  apply flat_map_ext. intros h. apply process_category_visits.
Qed.

Lemma additional_loop_visits doc data :
  additional_loop doc data
  = data ++ flat_map additional_visit_records (additional_visits doc).
Proof.
  rewrite additional_loop_appends. f_equal. apply labels_records_visits.
Qed.

Lemma label_visits_sorted b : StronglySorted before2 (label_visits b).
Proof.
  unfold label_visits. destruct (find_next_sibling div_list b) as [d|];
    [|constructor].
  apply StronglySorted_pairs; [apply find_all_sorted|].
  intros dl _. apply find_all_sorted.
Qed.

Lemma labels_visits_sorted labels :
  StronglySorted before labels -> StronglySorted before3 (labels_visits labels).
Proof.
  intros H. apply StronglySorted_pairs; [exact H|].
  intros b _. apply label_visits_sorted.
Qed.

Lemma heading_visits_sorted h : StronglySorted before3 (heading_visits h).
Proof.
  unfold heading_visits. destruct (find_next_sibling div_list h) as [d|];
    [|constructor].
  apply labels_visits_sorted, find_all_sorted.
Qed.

(** C5 as stated fails: in [detached_page] the list container of the
    heading is not its adjacent sibling, nor is that of the label, and the
    heading contributes a record all the same. *)
Lemma later_container_found :
  let h := Element [] 0 (txt "h4" "1. Metabolism") (tl detached_page) in
  In h (soup_find_all "h4" detached_page)
  /\ option_map div_list (hd_error (next_siblings h)) = Some false
  /\ process_category [] h
     = [ Row "Metabolism" "Carbohydrate metabolism" ">ABC123 <"
             "Example Pathway" ]
  /\ ~ (process_category [] h = []).
Proof.
  vm_compute. repeat split; [now left | discriminate].
Qed.

(** C5, as the code has it: the container of a heading, and of a label,
    is the first of its following siblings that is a [div] of class
    [list], whatever other siblings stand in between; the records of the
    heading or label are those of that container (there may be none); a
    heading or label none of whose following siblings is such a [div]
    contributes nothing. *)
Theorem first_matching_sibling (e : element) :
  (forall pre d post,
      next_siblings e = pre ++ d :: post ->
      Forall (fun n => div_list n = false) pre ->
      div_list d = true ->
      (forall data,
          process_category data e
          = fold_left (process_b (name_of e))
              (find_all "b" (Element (parent_path e)
                                     (S (index e) + List.length pre) d post))
              data)
      /\ (forall c data,
          process_b c data e
          = extract_pathways
              (find_all "dl" (Element (parent_path e)
                                      (S (index e) + List.length pre) d post))
              c (name_of e) data))
  /\ (Forall (fun n => div_list n = false) (next_siblings e) ->
      forall c data, process_category data e = data /\ process_b c data e = data).
Proof.
  split.
  - intros pre d post Hs Hpre Hd.
    assert (Hf : find_next_sibling div_list e
                 = Some (Element (parent_path e)
                                 (S (index e) + List.length pre) d post)).
    { unfold find_next_sibling. rewrite Hs.
      now apply first_match_skip. }
    split; intros; [unfold process_category | unfold process_b];
      now rewrite Hf.
  - intros Hnone c data.
    assert (Hf : find_next_sibling div_list e = None)
      by (now apply first_match_none).
    unfold process_category, process_b. now rewrite Hf.
Qed.

Lemma first_matching_sibling_witness :
  process_category []
    (Element [] 0 (txt "h4" "1. Metabolism") (tl detached_page))
  = [ Row "Metabolism" "Carbohydrate metabolism" ">ABC123 <" "Example Pathway" ]
  /\ process_b "N/A" [] (Element [] 0 (txt "b" "1.1 Label") [txt "p" "Note"]) = [].
Proof.
  split.
  - destruct (first_matching_sibling
                (Element [] 0 (txt "h4" "1. Metabolism") (tl detached_page)))
      as [H _].
    destruct (H [txt "p" "Overview"] (nth 2 detached_page (Comment "")) []
                eq_refl) as [Hc _].
    + repeat constructor.
    + reflexivity.
    + rewrite Hc. vm_compute. reflexivity.
  - destruct (first_matching_sibling
                (Element [] 0 (txt "b" "1.1 Label") [txt "p" "Note"]))
      as [_ H].
    apply (H ltac:(repeat constructor) "N/A" []).
Defined.

(** C6 as stated fails: the records of a pass do not follow the document
    order of their terms.  On [nested_page] the whole-document pass gives
    the records of [XXXXX], [YYYYY] and [XXXXX] again, in that order,
    from the terms at the positions below; the third record comes from a
    term that stands before the term of the second. *)
Lemma nested_terms_out_of_order :
  additional_loop nested_page []
  = [ Row "N/A" "Label" ">XXXXX <" "Inner";
      Row "N/A" "Label" ">YYYYY <" "Outer";
      Row "N/A" "Label" ">XXXXX <" "Inner" ]
  /\ map (fun v => path (snd (snd v))) (additional_visits nested_page)
     = [ [1; 0; 0; 0; 0]; [1; 0; 1]; [1; 0; 0; 0; 0] ]
  /\ path_ltb [1; 0; 0; 0; 0] [1; 0; 1] = true
  /\ run nested_page = additional_loop nested_page [].
Proof. repeat split; vm_compute; reflexivity. Qed.

(** C6, as the code has it: the output is a sequence.  Each pass appends
    to [data], for every iteration of its loop nest, what the term of that
    iteration gives: one record if the term is valid, none otherwise; the
    iterations of a pass come in document order compared by heading
    first, then label, then definition list, then term (so not by term
    alone); nothing appended is taken out again, so the output has one
    record for every iteration on a valid term, equal records included. *)
Theorem records_in_document_order (doc : soup) :
  (forall data,
      categories_loop doc data
      = data ++ flat_map category_visit_records (category_visits doc))
  /\ (forall data,
      additional_loop doc data
      = data ++ flat_map additional_visit_records (additional_visits doc))
  /\ run doc = flat_map category_visit_records (category_visits doc)
               ++ flat_map additional_visit_records (additional_visits doc)
  /\ StronglySorted before4 (category_visits doc)
  /\ StronglySorted before3 (additional_visits doc)
  /\ (forall c s dt,
      List.length (process_dt c s [] dt) = if valid_term dt then 1 else 0)
  /\ List.length (run doc)
     = List.length (filter (fun v => valid_term (snd (snd (snd v))))
                           (category_visits doc))
       + List.length (filter (fun v => valid_term (snd (snd v)))
                             (additional_visits doc)).
Proof.
  assert (Hrun : run doc
                 = flat_map category_visit_records (category_visits doc)
                   ++ flat_map additional_visit_records (additional_visits doc)).
  { rewrite run_two_passes, categories_loop_visits, additional_loop_visits.
    reflexivity. }
  repeat split.
  - apply categories_loop_visits.
  - apply additional_loop_visits.
  - exact Hrun.
  - apply StronglySorted_pairs; [apply soup_find_all_sorted|].
    intros h _. apply heading_visits_sorted.
  - apply labels_visits_sorted, soup_find_all_sorted.
  - apply process_dt_length.
  - rewrite Hrun, length_app. f_equal; apply length_flat_map_filter;
      intros v; apply process_dt_length.
Qed.

End Traversal.

(** ** What a label and an iteration contribute *)

Module PassRecords.
Import PyStr Soup Extractor PyStrFacts SoupFacts ExtractorFacts ExtractorSpec
       DocumentOrder Traversal.

Lemma flat_map_nil_iff {A B : Type} (f : A -> list B) (l : list A) :
  flat_map f l = [] <-> forall x, In x l -> f x = [].
Proof.
  induction l as [|a l IH]; simpl.
  - split; [intros _ x [] | reflexivity].
  - split.
    + intros H x [<- | Hx]; apply app_eq_nil in H; destruct H as [Ha Hl];
        [exact Ha | now apply IH].
    + intros H. rewrite (H a (or_introl eq_refl)). simpl.
      apply IH. intros x Hx. apply H. now right.
Qed.

Lemma process_dt_nil_iff c s dt :
  process_dt c s [] dt = [] <-> valid_term dt = false.
Proof.
  pose proof (process_dt_length c s dt) as H.
  destruct (valid_term dt); split; intros E; try reflexivity;
    try discriminate.
  - rewrite E in H. discriminate H.
  - destruct (process_dt c s [] dt); [reflexivity | discriminate H].
Qed.

Lemma label_visits_In b dl dt :
  In (dl, dt) (label_visits b)
  <-> exists d, find_next_sibling div_list b = Some d /\
                In dl (find_all "dl" d) /\ In dt (find_all "dt" dl).
Proof.
  unfold label_visits. destruct (find_next_sibling div_list b) as [d|].
  - unfold term_visits. rewrite in_flat_map. split.
    + intros (dl' & Hdl & H). apply in_map_iff in H.
      destruct H as (dt' & [= <- <-] & Hdt). now exists d.
    + intros (d' & [= <-] & Hdl & Hdt). exists dl. split; [exact Hdl|].
      apply in_map_iff. now exists dt.
  - split; [intros [] | intros (d & H & _); discriminate H].
Qed.

Lemma labels_visits_In labels b dl dt :
  In (b, (dl, dt)) (labels_visits labels)
  <-> In b labels /\ In (dl, dt) (label_visits b).
Proof.
  unfold labels_visits. rewrite in_flat_map. split.
  - intros (b' & Hb & H). apply in_map_iff in H.
    destruct H as ([dl' dt'] & [= <- <- <-] & Hv). now split.
  - intros [Hb Hv]. exists b. split; [exact Hb|].
    apply in_map_iff. now exists (dl, dt).
Qed.

Lemma category_visits_In doc h b dl dt :
  In (h, (b, (dl, dt))) (category_visits doc)
  <-> In h (soup_find_all "h4" doc) /\
      exists d, find_next_sibling div_list h = Some d /\
                In b (find_all "b" d) /\ In (dl, dt) (label_visits b).
Proof.
  unfold category_visits. rewrite in_flat_map. split.
  - intros (h' & Hh & H). apply in_map_iff in H.
    destruct H as ([b' [dl' dt']] & [= <- <- <- <-] & Hv).
    split; [exact Hh|]. unfold heading_visits in Hv.
    destruct (find_next_sibling div_list h') as [d|]; [|destruct Hv].
    exists d. split; [reflexivity|]. now apply labels_visits_In in Hv.
  - intros (Hh & d & Hd & Hb & Hv). exists h. split; [exact Hh|].
    apply in_map_iff. exists (b, (dl, dt)). split; [reflexivity|].
    unfold heading_visits. rewrite Hd. now apply labels_visits_In.
Qed.

(** C2, as the code has it: the whole-document pass appends, for every
    bold label in document order, what the label contributes under the
    category [N/A].  The container of a label is the first of its
    following siblings that is a [div] of class [list]: a label with no
    such sibling contributes nothing; a label with one contributes, for
    each [dl] found in the container and each [dt] found in that [dl],
    the record of the term if the term is valid: as many records as there
    are such (dl, dt) iterations on a valid term (a term inside two lists
    counts twice), and none exactly when no iteration is on a valid term.
    Every record of the category-scoped pass is among the records of the
    whole-document pass, with [N/A] for its category; so a full run gives
    the records of the first pass followed by those of the second, and at
    least as many as the first alone. *)
Theorem additional_pass_by_label (doc : soup) :
  (forall data,
      additional_loop doc data
      = data ++ flat_map (process_b "N/A" []) (soup_find_all "b" doc))
  /\ (forall b,
      Forall (fun n => div_list n = false) (next_siblings b) ->
      process_b "N/A" [] b = [])
  /\ (forall b pre d post,
      next_siblings b = pre ++ d :: post ->
      Forall (fun n => div_list n = false) pre -> div_list d = true ->
      process_b "N/A" [] b
      = flat_map
          (fun dl =>
             flat_map (process_dt "N/A" (name_of b) []) (find_all "dt" dl))
          (find_all "dl"
             (Element (parent_path b) (S (index b) + List.length pre) d post)))
  /\ (forall b,
      process_b "N/A" [] b
      = flat_map (fun v => process_dt "N/A" (name_of b) [] (snd v))
                 (label_visits b)
      /\ List.length (process_b "N/A" [] b)
         = List.length (filter (fun v => valid_term (snd v)) (label_visits b)))
  /\ (forall b,
      process_b "N/A" [] b = []
      <-> forall dl dt, In (dl, dt) (label_visits b) -> valid_term dt = false)
  /\ (forall r, In r (additional_loop doc []) -> Category r = "N/A")
  /\ (forall r, In r (categories_loop doc []) ->
                In (Row "N/A" (Sub_category r) (Pathway_ID r) (Pathway_Name r))
                   (additional_loop doc []))
  /\ run doc = categories_loop doc [] ++ additional_loop doc []
  /\ List.length (categories_loop doc []) <= List.length (run doc).
Proof.
  split; [intros; apply additional_loop_appends|].
  split; [|split; [|split; [|split; [|split; [|split; [|split]]]]]].
  - intros b Hnone. unfold process_b, find_next_sibling.
    now rewrite (first_match_none _ _ _ _ Hnone).
  - intros b pre d post Hs Hpre Hd. unfold process_b, find_next_sibling.
    rewrite Hs, (first_match_skip _ _ _ _ _ _ Hpre Hd).
    now rewrite extract_pathways_appends.
  - intros b. split; [apply process_b_visits|].
    rewrite process_b_visits. apply length_flat_map_filter.
    intros v. apply process_dt_length.
  - intros b. rewrite process_b_visits, flat_map_nil_iff. split.
    + intros H dl dt Hv. exact (proj1 (process_dt_nil_iff _ _ _) (H _ Hv)).
    + intros H [dl dt] Hv. apply process_dt_nil_iff. exact (H dl dt Hv).
  - intros r. rewrite additional_loop_appends. simpl. intros H.
    apply in_flat_map in H. destruct H as (b & _ & H).
    apply process_b_In in H. destruct H as (d & dl & dt & _ & _ & _ & H).
    apply process_dt_In in H. destruct H as (_ & dd & a & _ & _ & ->).
    reflexivity.
  - intros r. rewrite categories_loop_appends, additional_loop_appends.
    simpl. intros H.
    apply in_flat_map in H. destruct H as (h & Hh & H).
    apply process_category_In in H. destruct H as (d & b & Hd & Hb & H).
    apply in_flat_map. exists b. split.
    + apply soup_find_all_in in Hh. destruct Hh as [Hh _].
      apply (find_all_below "b" doc d b); [|exact Hb].
      exact (walk_closed_siblings _ _ _ _ _ _ Hh Hd).
    + exact (process_b_any_category _ "N/A" _ _ H).
  - apply run_two_passes.
  - rewrite run_two_passes, length_app. lia.
Qed.

Lemma additional_pass_by_label_witness :
  process_b "N/A" [] (Element [] 0 (txt "b" "1.1 Label") [txt "p" "Note"]) = []
  /\ Category (Row "N/A" "Carbohydrate metabolism" ">ABC123 <"
                   "Example Pathway") = "N/A"
  /\ In (Row "N/A" "Carbohydrate metabolism" ">ABC123 <" "Example Pathway")
        (additional_loop minimal_document []).
Proof.
  destruct (additional_pass_by_label minimal_document)
    as (_ & Hnone & _ & _ & _ & Hna & Hrep & _ & _).
  split; [|split].
  - apply Hnone. repeat constructor.
  - apply Hna. vm_compute. left. reflexivity.
  - apply (Hrep (Row "Metabolism" "Carbohydrate metabolism" ">ABC123 <"
                     "Example Pathway")).
    vm_compute. left. reflexivity.
Defined.

(** C4, as the code has it: every record of a full run has for Pathway ID
    the stripped text [t] of a [dt] element of the document between [>]
    and [ <], with [t] of at least 5 characters.  Each pass is the
    sequence of what its iterations append; an iteration of the
    whole-document pass appends records of Category [N/A]; an iteration
    of the category-scoped pass has a heading [h], an [h4] of the
    document, and a label found in the list container of [h], and the
    records it appends have for Category the name the text of that very
    heading gives (which is [N/A] when the heading text gives that). *)
Theorem record_invariant (doc : soup) :
  (forall r, In r (run doc) ->
     exists dt, In dt (soup_find_all "dt" doc) /\
                Pathway_ID r = (">" ++ strip (text (elem dt)) ++ " <")%string /\
                5 <= String.length (strip (text (elem dt))))
  /\ run doc = categories_loop doc [] ++ additional_loop doc []
  /\ categories_loop doc []
     = flat_map category_visit_records (category_visits doc)
  /\ additional_loop doc []
     = flat_map additional_visit_records (additional_visits doc)
  /\ (forall h b dl dt,
      In (h, (b, (dl, dt))) (category_visits doc)
      <-> In h (soup_find_all "h4" doc) /\
          exists d d',
            find_next_sibling div_list h = Some d /\ In b (find_all "b" d) /\
            find_next_sibling div_list b = Some d' /\
            In dl (find_all "dl" d') /\ In dt (find_all "dt" dl))
  /\ (forall b dl dt,
      In (b, (dl, dt)) (additional_visits doc)
      <-> In b (soup_find_all "b" doc) /\
          exists d',
            find_next_sibling div_list b = Some d' /\
            In dl (find_all "dl" d') /\ In dt (find_all "dt" dl))
  /\ (forall h b dl dt r,
      In r (category_visit_records (h, (b, (dl, dt)))) ->
      Category r = name_of h /\ Sub_category r = name_of b /\
      Pathway_ID r = (">" ++ strip (text (elem dt)) ++ " <")%string /\
      5 <= String.length (strip (text (elem dt))))
  /\ (forall b dl dt r,
      In r (additional_visit_records (b, (dl, dt))) ->
      Category r = "N/A" /\ Sub_category r = name_of b /\
      Pathway_ID r = (">" ++ strip (text (elem dt)) ++ " <")%string /\
      5 <= String.length (strip (text (elem dt))))
  /\ (forall r, In r (additional_loop doc []) -> Category r = "N/A")
  /\ (forall r, In r (categories_loop doc []) ->
        exists h b dl dt,
          In (h, (b, (dl, dt))) (category_visits doc) /\
          In r (category_visit_records (h, (b, (dl, dt)))) /\
          Category r = name_of h).
Proof.
  assert (Hrec : forall c s dt r, In r (process_dt c s [] dt) ->
            Category r = c /\ Sub_category r = s /\
            Pathway_ID r = (">" ++ strip (text (elem dt)) ++ " <")%string /\
            5 <= String.length (strip (text (elem dt)))).
  { intros c s dt r H. apply process_dt_In in H.
    destruct H as (Hlen & dd & a & _ & _ & ->). now repeat split. }
  assert (Hadd : forall b dl dt,
      In (b, (dl, dt)) (additional_visits doc)
      <-> In b (soup_find_all "b" doc) /\
          exists d',
            find_next_sibling div_list b = Some d' /\
            In dl (find_all "dl" d') /\ In dt (find_all "dt" dl)).
  { intros b dl dt. unfold additional_visits.
    now rewrite labels_visits_In, label_visits_In. }
  assert (Hcat : forall h b dl dt,
      In (h, (b, (dl, dt))) (category_visits doc)
      <-> In h (soup_find_all "h4" doc) /\
          exists d d',
            find_next_sibling div_list h = Some d /\ In b (find_all "b" d) /\
            find_next_sibling div_list b = Some d' /\
            In dl (find_all "dl" d') /\ In dt (find_all "dt" dl)).
  { intros h b dl dt. rewrite category_visits_In. split.
    - intros (Hh & d & Hd & Hb & Hv). apply label_visits_In in Hv.
      destruct Hv as (d' & Hd' & Hdl & Hdt). split; [exact Hh|].
      now exists d, d'.
    - intros (Hh & d & d' & Hd & Hb & Hd' & Hdl & Hdt). split; [exact Hh|].
      exists d. split; [exact Hd|]. split; [exact Hb|].
      apply label_visits_In. now exists d'. }
  assert (Hdt_add : forall b dl dt, In (b, (dl, dt)) (additional_visits doc) ->
            In dt (soup_find_all "dt" doc)).
  { intros b dl dt H. apply Hadd in H.
    destruct H as (Hb & d' & Hd' & Hdl & Hdt).
    apply soup_find_all_in in Hb. destruct Hb as [Hb _].
    pose proof (walk_closed_siblings _ _ _ _ _ _ Hb Hd') as H1.
    pose proof (find_all_below _ _ _ _ H1 Hdl) as H2.
    apply soup_find_all_in in H2. destruct H2 as [H2 _].
    exact (find_all_below _ _ _ _ H2 Hdt). }
  assert (Hdt_cat : forall h b dl dt,
            In (h, (b, (dl, dt))) (category_visits doc) ->
            In dt (soup_find_all "dt" doc)).
  { intros h b dl dt H. apply Hcat in H.
    destruct H as (Hh & d & d' & Hd & Hb & Hd' & Hdl & Hdt).
    apply soup_find_all_in in Hh. destruct Hh as [Hh _].
    pose proof (walk_closed_siblings _ _ _ _ _ _ Hh Hd) as H0.
    pose proof (find_all_below _ _ _ _ H0 Hb) as Hb'.
    apply soup_find_all_in in Hb'. destruct Hb' as [Hb' _].
    pose proof (walk_closed_siblings _ _ _ _ _ _ Hb' Hd') as H1.
    pose proof (find_all_below _ _ _ _ H1 Hdl) as H2.
    apply soup_find_all_in in H2. destruct H2 as [H2 _].
    exact (find_all_below _ _ _ _ H2 Hdt). }
  pose proof (categories_loop_visits doc []) as Ec. simpl in Ec.
  pose proof (additional_loop_visits doc []) as Ea. simpl in Ea.
  split; [|split; [apply run_two_passes|]].
  - intros r. rewrite run_two_passes, Ec, Ea. intros H.
    apply in_app_or in H. destruct H as [H | H]; apply in_flat_map in H.
    + destruct H as ([h [b [dl dt]]] & Hv & Hr). exists dt.
      split; [exact (Hdt_cat _ _ _ _ Hv)|].
      exact (proj2 (proj2 (Hrec _ _ _ _ Hr))).
    + destruct H as ([b [dl dt]] & Hv & Hr). exists dt.
      split; [exact (Hdt_add _ _ _ Hv)|].
      exact (proj2 (proj2 (Hrec _ _ _ _ Hr))).
  - split; [exact Ec|]. split; [exact Ea|]. split; [exact Hcat|].
    split; [exact Hadd|]. split; [|split; [|split]].
    + intros h b dl dt r H. exact (Hrec _ _ _ _ H).
    + intros b dl dt r H. exact (Hrec _ _ _ _ H).
    + intros r. rewrite Ea. intros H. apply in_flat_map in H.
      destruct H as ([b [dl dt]] & _ & Hr).
      exact (proj1 (Hrec _ _ _ _ Hr)).
    + intros r. rewrite Ec. intros H. apply in_flat_map in H.
      destruct H as ([h [b [dl dt]]] & Hv & Hr).
      exists h, b, dl, dt. split; [exact Hv|]. split; [exact Hr|].
      exact (proj1 (Hrec _ _ _ _ Hr)).
Qed.

Lemma record_invariant_witness :
  (exists dt, In dt (soup_find_all "dt" minimal_document) /\
              ">ABC123 <" = (">" ++ strip (text (elem dt)) ++ " <")%string /\
              5 <= String.length (strip (text (elem dt))))
  /\ (exists h b dl dt,
        In (h, (b, (dl, dt))) (category_visits minimal_document) /\
        In (Row "Metabolism" "Carbohydrate metabolism" ">ABC123 <"
                "Example Pathway")
           (category_visit_records (h, (b, (dl, dt)))) /\
        "Metabolism" = name_of h).
Proof.
  destruct (record_invariant minimal_document)
    as (Hid & _ & _ & _ & _ & _ & _ & _ & _ & Hcat).
  split.
  - apply (Hid (Row "Metabolism" "Carbohydrate metabolism" ">ABC123 <"
                    "Example Pathway")).
    vm_compute. left. reflexivity.
  - apply (Hcat (Row "Metabolism" "Carbohydrate metabolism" ">ABC123 <"
                     "Example Pathway")).
    vm_compute. left. reflexivity.
Defined.

End PassRecords.

(** ** kegg_paths_plot.py *)

Module KeggPlotSpec.
Import PyStr PyStrFacts KeggPlot KeggMerge.

(** Induction on a string two characters at a time, as [sub_ko] reads it. *)
Lemma string_pair_ind (P : string -> Prop) :
  P "" -> (forall c, P (String c "")) ->
  (forall c c' r, P r -> P (String c' r) -> P (String c (String c' r))) ->
  forall s, P s.
Proof.
  intros H0 H1 H2 s.
  enough (H : P s /\ forall c, P (String c s)) by exact (proj1 H).
  induction s as [|c' r [IHr IHc]]; split; auto.
Qed.

Lemma sub_ko_step c r :
  sub_ko (String c r)
  = match r with
    | String c' r' =>
        if Ascii.eqb c "k" && Ascii.eqb c' "o" then sub_ko r'
        else String c (sub_ko r)
    | EmptyString => String c EmptyString
    end.
Proof. destruct r; reflexivity. Qed.

Lemma sub_ko_length (s : string) : String.length (sub_ko s) <= String.length s.
Proof.
  induction s as [|c|c c' r IHr IHc] using string_pair_ind;
    [simpl; lia | simpl; lia |].
  rewrite sub_ko_step. destruct (Ascii.eqb c "k" && Ascii.eqb c' "o").
  - simpl. lia.
  - simpl String.length in *. lia.
Qed.

(** Every occurrence of [ko] goes, whatever stands before it. *)
Lemma sub_ko_occurrence (a b : string) :
  sub_ko (a ++ "ko" ++ b) = (sub_ko a ++ sub_ko b)%string.
Proof.
  induction a as [|c|c c' r IHr IHc] using string_pair_ind.
  - reflexivity.
  - change (sub_ko (String c (String "k" (String "o" b)))
            = String c (sub_ko b)).
    rewrite sub_ko_step.
    replace (Ascii.eqb "k" "o") with false by reflexivity.
    rewrite andb_false_r. reflexivity.
  - change (sub_ko (String c (String c' (r ++ "ko" ++ b)))
            = (sub_ko (String c (String c' r)) ++ sub_ko b)%string).
    rewrite (sub_ko_step c (String c' r)), sub_ko_step.
    destruct (Ascii.eqb c "k" && Ascii.eqb c' "o").
    + exact IHr.
    + simpl String.append. f_equal. exact IHc.
Qed.

Lemma zeros_length n : String.length (zeros n) = n.
Proof. unfold zeros. induction n as [|n IH]; simpl; [reflexivity | now rewrite IH]. Qed.

Lemma zfill_length w s : String.length (zfill w s) = Nat.max w (String.length s).
Proof.
  unfold zfill. destruct s as [|c r].
  - rewrite zeros_length. simpl. lia.
  - destruct (Ascii.eqb c "+" || Ascii.eqb c "-"); simpl;
      rewrite length_append, zeros_length; simpl; lia.
Qed.

(** C10, as the script runs: the cleaning of the 'Pathway ID' column asks
    for every [ko] to be taken out of an ID, wherever it occurs, before
    the ID is padded with zeros to width 5, and without copy-on-write
    (pandas 2) that is what happens to every string ID: an occurrence at
    any place goes, whatever stands before it, and the ID comes out
    changed.  With copy-on-write (pandas 3 and later) the chained in-place
    call of line 49 changes a temporary, and the IDs keep their [ko]:
    [ko00010] stays [ko00010].  Integer IDs are printed and padded. *)
Theorem chained_replace_needs_no_copy_on_write :
  clean_pathway_ids true [StrID "ko00010"; StrID "map00ko10"; StrID "4ko1"]
  = ["ko00010"; "map00ko10"; "04ko1"]
  /\ clean_pathway_ids false [StrID "ko00010"; StrID "map00ko10"; StrID "4ko1"]
     = ["00010"; "map0010"; "00041"]
  /\ (forall column,
      clean_pathway_ids true (map StrID column) = map (zfill 5) column)
  /\ (forall column,
      clean_pathway_ids false (map StrID column)
      = map (fun id => zfill 5 (sub_ko id)) column)
  /\ (forall a b, sub_ko (a ++ "ko" ++ b) = (sub_ko a ++ sub_ko b)%string)
  /\ (forall a b,
      String.length (sub_ko (a ++ "ko" ++ b)) + 2
      <= String.length (a ++ "ko" ++ b)
      /\ sub_ko (a ++ "ko" ++ b) <> (a ++ "ko" ++ b)%string)
  /\ (forall id, String.length (clean_pathway_id false (StrID id))
                 = Nat.max 5 (String.length (sub_ko id)))
  /\ (forall cow column,
      clean_pathway_ids cow column = map (clean_pathway_id cow) column)
  /\ (forall cow column,
      clean_pathway_ids cow (map IntID column) = map db_pathway_id column).
Proof.
  assert (Hcell : forall cow column,
            clean_pathway_ids cow column = map (clean_pathway_id cow) column).
  { intros cow column. unfold clean_pathway_ids, zfill_5, replace_ko.
    destruct cow.
    - apply map_ext. now intros [n|s].
    - rewrite map_map. apply map_ext. now intros [n|s]. }
  split; [reflexivity|]. split; [reflexivity|].
  split; [|split; [|split; [|split; [|split; [|split]]]]].
  - intros column. now rewrite Hcell, map_map.
  - intros column. now rewrite Hcell, map_map.
  - exact sub_ko_occurrence.
  - intros a b.
    assert (H : String.length (sub_ko (a ++ "ko" ++ b)) + 2
                <= String.length (a ++ "ko" ++ b)).
    { rewrite sub_ko_occurrence, !length_append.
      pose proof (sub_ko_length a). pose proof (sub_ko_length b).
      simpl String.length. lia. }
    split; [exact H|]. intros E. rewrite E in H. lia.
  - intros id. apply zfill_length.
  - exact Hcell.
  - intros cow column. now rewrite Hcell, map_map.
Qed.

(** The [try]/[except] block of lines 82-85: loading the curated table
    ends in a [FileNotFoundError] with the message that tells the user to
    prepare the file in Excel exactly when 'me_1_kegg_selected.csv' is
    missing; no [FileNotFoundError] leaves the block with another message,
    and when the file is there the block is the plain read. *)
Theorem selected_csv_missing_iff (table : Type)
    (parse_csv : string -> (string * string) + table) (fs : filesystem) :
  (load_selected table parse_csv fs = Raise (FileNotFoundError prepare_message)
   <-> fs selected_csv = Missing)
  /\ (forall msg,
      load_selected table parse_csv fs = Raise (FileNotFoundError msg) ->
      msg = prepare_message)
  /\ (fs selected_csv <> Missing ->
      load_selected table parse_csv fs = read_csv table parse_csv fs selected_csv).
Proof.
  unfold load_selected, read_csv.
  destruct (fs selected_csv) as [|class msg|content] eqn:E.
  - repeat split; auto; congruence.
  - repeat split; congruence.
  - destruct (parse_csv content) as [[class msg]|t];
      repeat split; congruence.
Qed.

Lemma selected_csv_missing_iff_witness :
  (fun _ : string => Missing) selected_csv = Missing
  /\ load_selected unit (fun _ => inr tt) (fun _ => Missing)
     = Raise (FileNotFoundError prepare_message).
Proof.
  split; [reflexivity|].
  apply (proj1 (selected_csv_missing_iff unit (fun _ => inr tt)
                  (fun _ => Missing))).
  reflexivity.
Defined.

End KeggPlotSpec.

(** ** go_plots_300724.py *)

Module GoPlotSpec.
Import PyStr GoPlot.

(** Comparing two floats the other way round gives the opposite answer. *)
Lemma SFcompare_antisym (x y : spec_float) :
  SFcompare y x = option_map CompOpp (SFcompare x y).
Proof.
  destruct x as [sx|sx| |sx mx ex], y as [sy|sy| |sy my ey]; simpl;
    try destruct sx; try destruct sy; try reflexivity;
    rewrite (Z.compare_antisym ex ey);
    destruct (Z.compare ex ey); simpl; try reflexivity;
    change (Pos.compare_cont Eq my mx) with (Pos.compare my mx);
    change (Pos.compare_cont Eq mx my) with (Pos.compare mx my);
    rewrite (Pos.compare_antisym mx my); reflexivity.
Qed.

(** [y < x] excludes [x <= y]. *)
Lemma ltb_not_leb (x y : float) :
  PrimFloat.ltb y x = true -> PrimFloat.leb x y = false.
Proof.
  rewrite ltb_spec, leb_spec. unfold SFltb, SFleb.
  rewrite (SFcompare_antisym (Prim2SF y) (Prim2SF x)).
  destruct (SFcompare (Prim2SF y) (Prim2SF x)) as [[]|]; simpl; congruence.
Qed.

(** A NaN is not [<=] anything. *)
Lemma nan_not_leb (x y : float) :
  PrimFloat.is_nan x = true -> PrimFloat.leb x y = false.
Proof.
  unfold PrimFloat.is_nan. rewrite eqb_spec, leb_spec. unfold SFeqb, SFleb.
  destruct (Prim2SF x) as [s|s| |s m e]; simpl; try discriminate;
    try reflexivity; try (destruct s; discriminate).
  rewrite Z.compare_refl.
  change (Pos.compare_cont Eq m m) with (Pos.compare m m).
  rewrite Pos.compare_refl. destruct s; discriminate.
Qed.

Lemma insert_desc_In r x l : In x (insert_desc r l) <-> x = r \/ In x l.
Proof.
  induction l as [|r' l IH]; simpl.
  - intuition.
  - destruct (Z.leb _ _); simpl; [intuition | rewrite IH; intuition].
Qed.

Lemma sorted_In x l : In x (fold_right insert_desc [] l) <-> In x l.
Proof.
  induction l as [|r l IH]; simpl; [reflexivity|].
  rewrite insert_desc_In, IH. intuition.
Qed.

Lemma firstn_In {A : Type} n (x : A) l : In x (firstn n l) -> In x l.
Proof.
  revert l. induction n as [|n IH]; intros [|y l]; simpl; try tauto.
  intros [H | H]; [now left | right; now apply IH].
Qed.

Lemma nlargest_In n x df : In x (nlargest n df) -> In x df.
Proof. unfold nlargest. intros H. apply firstn_In in H. now apply sorted_In. Qed.

Section Plot.
Variable log10 : float -> float.

Lemma prepared_In p df :
  In p (prepared log10 df) ->
  exists r, In r df /\ PrimFloat.leb (Pvalue r) threshold = true /\
    p = with_term (truncate_term (Term r))
          {| row := r; neg_log_Pvalue := PrimFloat.opp (log10 (Pvalue r)) |}.
Proof.
  unfold prepared, add_neg_log, significant. rewrite map_map. intros H.
  apply in_map_iff in H. destruct H as (r & <- & H).
  apply filter_In in H. exists r. now repeat split.
Qed.

(** C8: the filter keeps exactly the rows with Pvalue <= 0.05, so a row
    with Pvalue > 0.05 (or with no Pvalue) is gone before anything else
    happens; the column '-log(Pvalue)' is computed on the rows that are
    left, and every bar of every panel comes from such a row. *)
Theorem only_significant_rows_plotted (df : list go_row) :
  (forall r, In r (significant df)
             <-> In r df /\ PrimFloat.leb (Pvalue r) threshold = true)
  /\ (forall r, PrimFloat.ltb threshold (Pvalue r) = true ->
                ~ In r (significant df))
  /\ (forall r, PrimFloat.is_nan (Pvalue r) = true -> ~ In r (significant df))
  /\ add_neg_log log10 (significant df)
     = map (fun r => {| row := r;
                        neg_log_Pvalue := PrimFloat.opp (log10 (Pvalue r)) |})
           (filter (fun r => PrimFloat.leb (Pvalue r) threshold) df)
  /\ (forall g bars bar,
        In (g, bars) (panels log10 df) -> In bar bars ->
        exists r, In r df /\ PrimFloat.leb (Pvalue r) threshold = true /\
          bar = with_term (truncate_term (Term r))
                  {| row := r;
                     neg_log_Pvalue := PrimFloat.opp (log10 (Pvalue r)) |}).
Proof.
  split; [|split; [|split; [|split]]].
  - intros r. unfold significant. apply filter_In.
  - intros r Hgt Hin. unfold significant in Hin. apply filter_In in Hin.
    rewrite (ltb_not_leb _ _ Hgt) in Hin. destruct Hin; discriminate.
  - intros r Hnan Hin. unfold significant in Hin. apply filter_In in Hin.
    destruct Hin as [_ Hle]. rewrite (nan_not_leb _ _ Hnan) in Hle.
    discriminate.
  - reflexivity.
  - intros g bars bar Hp Hbar. unfold panels in Hp.
    apply in_map_iff in Hp. destruct Hp as (g' & [= <- <-] & _).
    apply nlargest_In in Hbar. apply filter_In in Hbar.
    apply prepared_In, (proj1 Hbar).
Qed.

End Plot.

Lemma only_significant_rows_plotted_witness :
  PrimFloat.ltb threshold 0.5%float = true
  /\ ~ In (GoRow "cell wall" 12 0.5%float "CC")
          (significant [ GoRow "defense response" 40 0.03125%float "BP";
                         GoRow "cell wall" 12 0.5%float "CC" ]).
Proof.
  split; [reflexivity|].
  apply (proj1 (proj2 (only_significant_rows_plotted (fun x => x) _))).
  reflexivity.
Defined.

End GoPlotSpec.

(* ================================================================== *)
(** * Further properties *)
(* ================================================================== *)

(** ** Stripping and naming *)

Module NamingFacts.
Import PyStr PyStrShape Soup Extractor PyStrFacts SoupFacts ExtractorFacts
       ExtractorSpec.

Lemma lstrip_first (s : string) : first_is_space (lstrip s) = false.
Proof.
  induction s as [|c s IH]; simpl; [reflexivity|].
  destruct (is_space c) eqn:E; [exact IH | simpl; exact E].
Qed.

Lemma lstrip_fixed (s : string) : first_is_space s = false -> lstrip s = s.
Proof. destruct s as [|c s]; simpl; [reflexivity | now intros ->]. Qed.

Lemma rstrip_first (s : string) :
  first_is_space s = false -> first_is_space (rstrip s) = false.
Proof.
  destruct s as [|c s]; simpl; [reflexivity|]. intros E.
  destruct (rstrip s); [rewrite E|]; simpl; exact E.
Qed.

Lemma rstrip_last (s : string) : last_is_space (rstrip s) = false.
Proof.
  induction s as [|c s IH]; simpl; [reflexivity|].
  destruct (rstrip s) as [|c' r'] eqn:E.
  - destruct (is_space c) eqn:Ec; simpl; [reflexivity | exact Ec].
  - exact IH.
Qed.

Lemma rstrip_fixed (s : string) : last_is_space s = false -> rstrip s = s.
Proof.
  induction s as [|c s IH]; simpl; [reflexivity|].
  destruct s as [|c' s'].
  - simpl. now intros ->.
  - intros H. rewrite (IH H). reflexivity.
Qed.

Lemma strip_fixed (s : string) :
  first_is_space s = false -> last_is_space s = false -> strip s = s.
Proof.
  intros Hf Hl. unfold strip. rewrite (lstrip_fixed _ Hf).
  now apply rstrip_fixed.
Qed.

Lemma strip_shape (s : string) :
  first_is_space (strip s) = false /\ last_is_space (strip s) = false.
Proof.
  unfold strip. split; [apply rstrip_first, lstrip_first | apply rstrip_last].
Qed.

Lemma strip_idempotent (s : string) : strip (strip s) = strip s.
Proof. destruct (strip_shape s) as [Hf Hl]. now apply strip_fixed. Qed.

(** [strip] removes the white space at both ends and nothing else
    changes the outcome: its result neither starts nor ends with white
    space, and a string is left as it is exactly when it neither starts
    nor ends with white space. *)
Theorem strip_exactly_outer_space (s : string) :
  first_is_space (strip s) = false
  /\ last_is_space (strip s) = false
  /\ strip (strip s) = strip s
  /\ (strip s = s <-> first_is_space s = false /\ last_is_space s = false).
Proof.
  destruct (strip_shape s) as [Hf Hl].
  split; [exact Hf|]. split; [exact Hl|]. split; [apply strip_idempotent|].
  split.
  - intros E. rewrite <- E. now split.
  - intros [H1 H2]. now apply strip_fixed.
Qed.

Lemma after_first_space_app (a b : string) :
  contains_char " " a = false ->
  after_first_space (a ++ String " " b) = Some b.
Proof.
  induction a as [|c a IH]; simpl; [reflexivity|].
  destruct (Ascii.eqb c " "); simpl; [discriminate | exact IH].
Qed.

Lemma after_first_space_none (s : string) :
  contains_char " " s = false -> after_first_space s = None.
Proof.
  induction s as [|c s IH]; simpl; [reflexivity|].
  destruct (Ascii.eqb c " "); simpl; [discriminate | exact IH].
Qed.

(** X1: the name of a heading or label is what follows the first space
    of its stripped text, stripped again: a leading number goes, and so
    does the first word of a text that has no number; a text of one word
    is kept whole. *)
Theorem name_drops_first_word (s : string) :
  (forall a b,
      strip s = (a ++ String " " b)%string -> contains_char " " a = false ->
      name_of_text s = strip b)
  /\ (contains_char " " (strip s) = false -> name_of_text s = strip s).
Proof.
  unfold name_of_text, split1_last. split.
  - intros a b E Ha. rewrite E, (after_first_space_app _ _ Ha). reflexivity.
  - intros H. rewrite (after_first_space_none _ H). apply strip_idempotent.
Qed.

Lemma name_drops_first_word_witness :
  name_of_text "  1.1 Carbohydrate metabolism " = "Carbohydrate metabolism"
  /\ name_of_text "Carbohydrate metabolism" = "metabolism"
  /\ name_of_text " Metabolism" = "Metabolism".
Proof.
  split; [|split].
  - apply (proj1 (name_drops_first_word "  1.1 Carbohydrate metabolism ")
             "1.1" "Carbohydrate metabolism"); reflexivity.
  - apply (proj1 (name_drops_first_word "Carbohydrate metabolism")
             "Carbohydrate" "metabolism"); reflexivity.
  - apply (proj2 (name_drops_first_word " Metabolism")). reflexivity.
Defined.

(** X2: every text field of every exported row is stripped: Category,
    Sub-category and Pathway Name neither start nor end with white space,
    and stripping them again changes nothing. *)
Theorem record_fields_stripped (doc : soup) (r : PathwayRecord) :
  In r (run doc) ->
  strip (Category r) = Category r
  /\ strip (Sub_category r) = Sub_category r
  /\ strip (Pathway_Name r) = Pathway_Name r.
Proof.
  assert (Hlabel : forall c b, strip c = c -> In r (process_b c [] b) ->
            strip (Category r) = Category r
            /\ strip (Sub_category r) = Sub_category r
            /\ strip (Pathway_Name r) = Pathway_Name r).
  { intros c b Hc H. apply process_b_In in H.
    destruct H as (d & dl & dt & _ & _ & _ & H).
    apply process_dt_In in H. destruct H as (_ & dd & a & _ & _ & ->).
    simpl. split; [exact Hc|]. split; apply strip_idempotent. }
  rewrite run_two_passes, categories_loop_appends, additional_loop_appends.
  simpl. intros H. apply in_app_or in H. destruct H as [H | H].
  - apply in_flat_map in H. destruct H as (h & _ & H).
    apply process_category_In in H. destruct H as (d & b & _ & _ & H).
    apply (Hlabel (name_of h) b); [apply strip_idempotent | exact H].
  - apply in_flat_map in H. destruct H as (b & _ & H).
    apply (Hlabel "N/A" b); [reflexivity | exact H].
Qed.

Lemma record_fields_stripped_witness :
  strip "Metabolism" = "Metabolism"
  /\ strip "Carbohydrate metabolism" = "Carbohydrate metabolism"
  /\ strip "Example Pathway" = "Example Pathway".
Proof.
  apply (record_fields_stripped minimal_document
           (Row "Metabolism" "Carbohydrate metabolism" ">ABC123 <"
                "Example Pathway")).
  vm_compute. left. reflexivity.
Defined.

End NamingFacts.

(** ** Where the rows come from *)

Module Provenance.
Import PyStr Soup Extractor Positions PyStrFacts SoupFacts ExtractorFacts
       ExtractorSpec DocumentOrder Traversal.

Lemma find_next_sibling_accepts P e d :
  find_next_sibling P e = Some d -> P (elem d) = true.
Proof.
  unfold find_next_sibling. intros H. apply first_match_Some in H.
  now destruct H as (pre & post & _ & _ & Hd & _).
Qed.

Lemma div_list_is_div n : div_list n = true -> is_tag "div" n = true.
Proof.
  unfold div_list, is_tag_class, is_tag. destruct n; try discriminate.
  intros H. now apply andb_prop in H.
Qed.

Lemma find_In nm e a : find nm e = Some a -> In a (find_all nm e).
Proof.
  unfold find. destruct (find_all nm e) as [|x l]; simpl; [discriminate|].
  intros [= <-]. now left.
Qed.

Lemma sibling_found nm P doc e d :
  (forall n, P n = true -> is_tag nm n = true) ->
  In e (soup_descendants doc) -> find_next_sibling P e = Some d ->
  In d (soup_find_all nm doc).
Proof.
  intros HP He Hd. apply soup_find_all_in. split.
  - exact (walk_closed_siblings _ _ _ _ _ _ He Hd).
  - apply HP. exact (find_next_sibling_accepts _ _ _ Hd).
Qed.

(** The chain of elements behind a record of one label. *)
Lemma label_chain doc c b r :
  In b (soup_find_all "b" doc) -> In r (process_b c [] b) ->
  exists d dl dt dd a,
    find_next_sibling div_list b = Some d /\ In d (soup_find_all "div" doc) /\
    In dl (find_all "dl" d) /\ In dl (soup_find_all "dl" doc) /\
    In dt (find_all "dt" dl) /\ In dt (soup_find_all "dt" doc) /\
    find_next_sibling (is_tag "dd") dt = Some dd /\
    In dd (soup_find_all "dd" doc) /\
    find "a" dd = Some a /\ In a (soup_find_all "a" doc) /\
    r = Row c (name_of b) (">" ++ strip (text (elem dt)) ++ " <")
            (strip (text (elem a))).
Proof.
  intros Hb H. apply process_b_In in H.
  destruct H as (d & dl & dt & Hd & Hdl & Hdt & H).
  apply process_dt_In in H. destruct H as (_ & dd & a & Hdd & Ha & ->).
  apply soup_find_all_in in Hb. destruct Hb as [Hb _].
  pose proof (sibling_found "div" _ _ _ _ div_list_is_div Hb Hd) as Hd'.
  pose proof (proj1 (proj1 (soup_find_all_in _ _ _) Hd')) as Hd''.
  pose proof (find_all_below _ _ _ _ Hd'' Hdl) as Hdl'.
  pose proof (proj1 (proj1 (soup_find_all_in _ _ _) Hdl')) as Hdl''.
  pose proof (find_all_below _ _ _ _ Hdl'' Hdt) as Hdt'.
  pose proof (proj1 (proj1 (soup_find_all_in _ _ _) Hdt')) as Hdt''.
  pose proof (sibling_found "dd" _ _ _ _ (fun n H => H) Hdt'' Hdd) as Hdd'.
  pose proof (proj1 (proj1 (soup_find_all_in _ _ _) Hdd')) as Hdd''.
  pose proof (find_all_below _ _ _ _ Hdd'' (find_In _ _ _ Ha)) as Ha'.
  exists d, dl, dt, dd, a. repeat split; assumption.
Qed.

Lemma run_label doc r :
  In r (run doc) ->
  exists c b, In b (soup_find_all "b" doc) /\ In r (process_b c [] b).
Proof.
  rewrite run_two_passes, categories_loop_appends, additional_loop_appends.
  simpl. intros H. apply in_app_or in H. destruct H as [H | H].
  - apply in_flat_map in H. destruct H as (h & Hh & H).
    apply process_category_In in H. destruct H as (d & b & Hd & Hb & H).
    exists (name_of h), b. split; [|exact H].
    apply soup_find_all_in in Hh. destruct Hh as [Hh _].
    apply (find_all_below "b" doc d b); [|exact Hb].
    exact (walk_closed_siblings _ _ _ _ _ _ Hh Hd).
  - apply in_flat_map in H. destruct H as (b & Hb & H).
    now exists "N/A", b.
Qed.

(** X3: each exported row pairs a term with the first link inside the
    first [dd] sibling that follows the term: its Sub-category is the name
    of a bold label of the document, its Pathway ID the stripped text of a
    [dt] found in a [dl] of the label's list container, its Pathway Name
    the stripped text of that link; label, container, list, term,
    definition and link are all elements of the document. *)
Theorem row_pairs_term_with_first_link (doc : soup) (r : PathwayRecord) :
  In r (run doc) ->
  exists b d dl dt dd a,
    In b (soup_find_all "b" doc) /\
    find_next_sibling div_list b = Some d /\ In d (soup_find_all "div" doc) /\
    In dl (find_all "dl" d) /\ In dl (soup_find_all "dl" doc) /\
    In dt (find_all "dt" dl) /\ In dt (soup_find_all "dt" doc) /\
    find_next_sibling (is_tag "dd") dt = Some dd /\
    In dd (soup_find_all "dd" doc) /\
    find "a" dd = Some a /\ In a (soup_find_all "a" doc) /\
    Sub_category r = name_of b /\
    Pathway_ID r = (">" ++ strip (text (elem dt)) ++ " <")%string /\
    Pathway_Name r = strip (text (elem a)).
Proof.
  intros H. destruct (run_label _ _ H) as (c & b & Hb & Hr).
  destruct (label_chain _ _ _ _ Hb Hr)
    as (d & dl & dt & dd & a & H1 & H2 & H3 & H4 & H5 & H6 & H7 & H8 & H9
        & H10 & ->).
  exists b, d, dl, dt, dd, a. simpl. repeat split; assumption.
Qed.

Lemma row_pairs_term_with_first_link_witness :
  exists b d dl dt dd a,
    In b (soup_find_all "b" minimal_document) /\
    find_next_sibling div_list b = Some d /\
    In d (soup_find_all "div" minimal_document) /\
    In dl (find_all "dl" d) /\ In dl (soup_find_all "dl" minimal_document) /\
    In dt (find_all "dt" dl) /\ In dt (soup_find_all "dt" minimal_document) /\
    find_next_sibling (is_tag "dd") dt = Some dd /\
    In dd (soup_find_all "dd" minimal_document) /\
    find "a" dd = Some a /\ In a (soup_find_all "a" minimal_document) /\
    "Carbohydrate metabolism" = name_of b /\
    ">ABC123 <" = (">" ++ strip (text (elem dt)) ++ " <")%string /\
    "Example Pathway" = strip (text (elem a)).
Proof.
  apply (row_pairs_term_with_first_link minimal_document
           (Row "N/A" "Carbohydrate metabolism" ">ABC123 <" "Example Pathway")).
  vm_compute. right. left. reflexivity.
Defined.

(** X4: a document that lacks any one of the six kinds of element the
    extractor follows (a bold label, a [div], a [dl], a [dt], a [dd], a
    link) gives no row at all, whatever else it holds. *)
Theorem no_markup_no_rows (doc : soup) :
  soup_find_all "b" doc = [] \/ soup_find_all "div" doc = [] \/
  soup_find_all "dl" doc = [] \/ soup_find_all "dt" doc = [] \/
  soup_find_all "dd" doc = [] \/ soup_find_all "a" doc = [] ->
  run doc = [].
Proof.
  intros H. destruct (run doc) as [|r l] eqn:E; [reflexivity|]. exfalso.
  assert (Hr : In r (run doc)) by (rewrite E; now left).
  destruct (run_label _ _ Hr) as (c & b & Hb & Hp).
  destruct (label_chain _ _ _ _ Hb Hp)
    as (d & dl & dt & dd & a & _ & Hd & _ & Hdl & _ & Hdt & _ & Hdd & _
        & Ha & _).
  destruct H as [H | [H | [H | [H | [H | H]]]]]; rewrite H in *;
    contradiction.
Qed.

Lemma no_markup_no_rows_witness :
  soup_find_all "dt" lonely_label = [] /\ run lonely_label = [].
Proof.
  split; [reflexivity|].
  apply no_markup_no_rows. right; right; right; left. reflexivity.
Defined.

Lemma slexprod_irrefl {A B : Type} (RA : A -> A -> Prop) (RB : B -> B -> Prop) :
  (forall a, ~ RA a a) -> (forall b, ~ RB b b) ->
  forall x, ~ slexprod A B RA RB x x.
Proof.
  intros HA HB [a b] H. inversion H; subst; [now apply (HA a) | now apply (HB b)].
Qed.

(** X5: no iteration happens twice within a pass: [find_all] lists every
    element once, so the whole-document pass handles each bold label
    once, and the combinations (heading, label, list, term) of the
    category-scoped pass and (label, list, term) of the whole-document
    pass are pairwise different. *)
Theorem iterations_are_distinct (doc : soup) :
  (forall nm, NoDup (soup_find_all nm doc))
  /\ (forall nm e, NoDup (find_all nm e))
  /\ NoDup (category_visits doc)
  /\ NoDup (additional_visits doc).
Proof.
  assert (H2 : forall x, ~ before2 x x)
    by (apply slexprod_irrefl; apply before_irrefl).
  assert (H3 : forall x, ~ before3 x x)
    by (apply slexprod_irrefl; [apply before_irrefl | exact H2]).
  assert (H4 : forall x, ~ before4 x x)
    by (apply slexprod_irrefl; [apply before_irrefl | exact H3]).
  repeat split.
  - intros nm. apply (StronglySorted_NoDup before); [apply before_irrefl|].
    apply soup_find_all_sorted.
  - intros nm e. apply (StronglySorted_NoDup before); [apply before_irrefl|].
    apply find_all_sorted.
  - apply (StronglySorted_NoDup before4); [exact H4|].
    apply StronglySorted_pairs; [apply soup_find_all_sorted|].
    intros h _. apply heading_visits_sorted.
  - apply (StronglySorted_NoDup before3); [exact H3|].
    apply labels_visits_sorted, soup_find_all_sorted.
Qed.

(** Elements of a walk sit where their paths say. *)
Lemma walk_sound :
  forall l p k e, In e (walk p k l) ->
    exists j q, path e = p ++ (k + j) :: q /\
                node_at_path l (j :: q) = Some (elem e, next_siblings e).
Proof.
  apply (forest_ind
    (fun n => forall p e, In e (node_descendants p n) ->
       exists j q, path e = p ++ j :: q /\
         match n with
         | Tag _ _ cs => node_at_path cs (j :: q)
                         = Some (elem e, next_siblings e)
         | _ => False
         end)
    (fun l => forall p k e, In e (walk p k l) ->
       exists j q, path e = p ++ (k + j) :: q /\
                   node_at_path l (j :: q) = Some (elem e, next_siblings e))).
  - intros s p e [].
  - intros s p e [].
  - intros nm cls cs IH p e. rewrite node_descendants_Tag. intros H.
    destruct (IH _ _ _ H) as (j & q & Hp & Hn). now exists j, q.
  - intros p k e [].
  - intros c r IHc IHr p k e. simpl. intros [<- | H].
    + exists 0, []. rewrite Nat.add_0_r. split; reflexivity.
    + apply in_app_or in H. destruct H as [H | H].
      * destruct (IHc _ _ H) as (j & q & Hp & Hn).
        exists 0, (j :: q). rewrite Nat.add_0_r. split.
        -- rewrite Hp. now rewrite <- app_assoc.
        -- simpl. destruct c; [contradiction | contradiction | exact Hn].
      * destruct (IHr _ _ _ H) as (j & q & Hp & Hn).
        exists (S j), q. split.
        -- rewrite Hp. do 2 f_equal. lia.
        -- exact Hn.
Qed.

(** Every position of the contents is reached by the walk. *)
Lemma walk_complete :
  forall l p k j q n sibs,
    node_at_path l (j :: q) = Some (n, sibs) ->
    exists e, In e (walk p k l) /\ path e = p ++ (k + j) :: q /\
              elem e = n /\ next_siblings e = sibs.
Proof.
  apply (forest_ind
    (fun c => forall p j q n sibs,
       match c with
       | Tag _ _ cs => node_at_path cs (j :: q) = Some (n, sibs)
       | _ => False
       end ->
       exists e, In e (node_descendants p c) /\ path e = p ++ j :: q /\
                 elem e = n /\ next_siblings e = sibs)
    (fun l => forall p k j q n sibs,
       node_at_path l (j :: q) = Some (n, sibs) ->
       exists e, In e (walk p k l) /\ path e = p ++ (k + j) :: q /\
                 elem e = n /\ next_siblings e = sibs)).
  - intros s p j q n sibs [].
  - intros s p j q n sibs [].
  - intros nm cls cs IH p j q n sibs H. rewrite node_descendants_Tag.
    apply (IH p 0 j q n sibs H).
  - intros p k j q n sibs H. simpl in H. destruct j; discriminate.
  - intros c r IHc IHr p k j q n sibs H. destruct j as [|j].
    + rewrite Nat.add_0_r. destruct q as [|j' q'].
      * simpl in H. injection H as <- <-.
        exists (Element p k c r). simpl. repeat split. now left.
      * assert (Hc : match c with
                     | Tag _ _ cs => node_at_path cs (j' :: q') = Some (n, sibs)
                     | _ => False
                     end).
        { simpl in H. destruct c; try discriminate. exact H. }
        destruct (IHc (p ++ [k]) j' q' n sibs Hc) as (e & He & Hp & Hn & Hs).
        exists e. split; [|split; [|split; assumption]].
        -- simpl. right. apply in_or_app. now left.
        -- rewrite Hp. now rewrite <- app_assoc.
    + assert (Hr : node_at_path r (j :: q) = Some (n, sibs)) by exact H.
      destruct (IHr p (S k) j q n sibs Hr) as (e & He & Hp & Hn & Hs).
      exists e. split; [|split; [|split; assumption]].
      * simpl. right. apply in_or_app. now right.
      * rewrite Hp. do 2 f_equal. lia.
Qed.

(** X6: [find_all] on the document finds exactly the tags of the asked
    name, at any depth: an element is in its result if and only if the
    document holds, at the position the element carries, that very node
    followed by those very siblings, and the node is a tag of that name.
    So the whole-document pass sees every bold label, nested or not. *)
Theorem find_all_exactly_the_tags (nm : string) (doc : soup) (e : element) :
  In e (soup_find_all nm doc)
  <-> node_at_path doc (path e) = Some (elem e, next_siblings e)
      /\ is_tag nm (elem e) = true.
Proof.
  rewrite soup_find_all_in. unfold soup_descendants.
  split; intros [H Ht]; (split; [|exact Ht]).
  - destruct (walk_sound _ _ _ _ H) as (j & q & Hp & Hn).
    simpl in Hp. now rewrite Hp.
  - unfold path in H.
    destruct (parent_path e ++ [index e]) as [|j q] eqn:E;
      [now destruct (parent_path e)|].
    destruct (walk_complete doc [] 0 j q _ _ H) as (e' & He' & Hp & Hn & Hs).
    replace e with e'; [exact He'|].
    simpl in Hp. unfold path in Hp. rewrite <- E in Hp.
    apply app_inj_tail in Hp. destruct Hp as [Hpp Hi].
    destruct e, e'. simpl in *. congruence.
Qed.

End Provenance.

(** ** The keys of the KEGG merge *)

Module KeggMergeFacts.
Import PyStr PyStrShape PyStrFacts KeggPlot KeggMerge KeggPlotSpec.
Import Decimal.

Lemma zfill_wide (w : nat) (s : string) :
  w <= String.length s -> zfill w s = s.
Proof.
  intros H. unfold zfill.
  replace (w - String.length s) with 0 by lia.
  destruct s as [|c r]; [reflexivity|].
  now destruct (Ascii.eqb c "+" || Ascii.eqb c "-").
Qed.

Lemma digit_not_sign c :
  is_digit c = true -> Ascii.eqb c "+" || Ascii.eqb c "-" = false.
Proof.
  intros H. destruct (Ascii.eqb_spec c "+") as [-> | _]; [discriminate H|].
  destruct (Ascii.eqb_spec c "-") as [-> | _]; [discriminate H | reflexivity].
Qed.

Lemma digit_not_k c : is_digit c = true -> Ascii.eqb c "k" = false.
Proof.
  intros H. destruct (Ascii.eqb_spec c "k") as [-> | _];
    [discriminate H | reflexivity].
Qed.

Lemma zfill_digits (w : nat) (s : string) :
  all_digits s = true ->
  zfill w s = (zeros (w - String.length s) ++ s)%string.
Proof.
  unfold zfill. destruct s as [|c r]; simpl.
  - intros _. now rewrite append_empty_r.
  - intros H. apply andb_prop in H. destruct H as [Hc _].
    now rewrite (digit_not_sign _ Hc).
Qed.

Lemma sub_ko_digits (s : string) : all_digits s = true -> sub_ko s = s.
Proof.
  induction s as [|c r IH]; [reflexivity|]. simpl all_digits. intros H.
  apply andb_prop in H. destruct H as [Hc Hr].
  rewrite sub_ko_step. destruct r as [|c' r']; [reflexivity|].
  rewrite (digit_not_k _ Hc). simpl andb. now rewrite (IH Hr).
Qed.

Lemma all_digits_app (a b : string) :
  all_digits (a ++ b) = all_digits a && all_digits b.
Proof.
  induction a as [|c a IH]; simpl; [reflexivity|].
  now rewrite IH, andb_assoc.
Qed.

Lemma all_digits_zeros k : all_digits (zeros k) = true.
Proof. unfold zeros. induction k as [|k IH]; simpl; [reflexivity | exact IH]. Qed.

Lemma all_digits_uint (d : uint) :
  all_digits (DecimalString.NilEmpty.string_of_uint d) = true.
Proof. induction d; simpl; auto. Qed.

Lemma str_of_int_nonneg (n : Z) :
  (0 <= n)%Z ->
  str_of_int n = DecimalString.NilEmpty.string_of_uint (N.to_uint (Z.to_N n)).
Proof.
  intros H. unfold str_of_int. destruct n as [|p|p]; try reflexivity; [|lia].
  simpl. unfold DecimalString.NilZero.string_of_uint.
  pose proof (DecimalPos.Unsigned.to_uint_nonnil p) as Hp.
  destruct (Pos.to_uint p); [contradiction | reflexivity..].
Qed.

Lemma zeros_uint k (d : uint) :
  (zeros k ++ DecimalString.NilEmpty.string_of_uint d)%string
  = DecimalString.NilEmpty.string_of_uint (Nat.iter k D0 d).
Proof.
  unfold zeros. induction k as [|k IH]; simpl; [reflexivity | now rewrite IH].
Qed.

Lemma of_uint_zeros k (d : uint) : N.of_uint (Nat.iter k D0 d) = N.of_uint d.
Proof. induction k as [|k IH]; simpl; [reflexivity | exact IH]. Qed.

Lemma string_of_uint_inj (d d' : uint) :
  DecimalString.NilEmpty.string_of_uint d
  = DecimalString.NilEmpty.string_of_uint d' -> d = d'.
Proof.
  intros H. apply (f_equal DecimalString.NilEmpty.uint_of_string) in H.
  rewrite !DecimalString.NilEmpty.usu in H. now injection H.
Qed.

Lemma db_pathway_id_nonneg (n : Z) :
  (0 <= n)%Z ->
  exists k,
    db_pathway_id n
    = DecimalString.NilEmpty.string_of_uint
        (Nat.iter k D0 (N.to_uint (Z.to_N n))).
Proof.
  intros H. unfold db_pathway_id. rewrite (str_of_int_nonneg _ H).
  rewrite zfill_digits by apply all_digits_uint.
  eexists. apply zeros_uint.
Qed.

Lemma short_from_spec k : forall p q,
  short_from k p = true -> (p <= q)%positive ->
  Pos.to_nat q < Pos.to_nat p + k ->
  String.length (str_of_int (Z.pos q)) <= 5.
Proof.
  induction k as [|k IH]; intros p q H Hpq Hq; [lia|].
  simpl in H. apply andb_prop in H. destruct H as [Hp Hk].
  destruct (Pos.eq_dec p q) as [<- | Hne].
  - now apply Nat.leb_le.
  - apply (IH (Pos.succ p) q Hk); lia.
Qed.

Lemma short_below_100000 : short_from (Pos.to_nat 99999) 1 = true.
Proof. vm_compute. reflexivity. Qed.

(** X7: the key of a database row with a non-negative integer ID is made
    of digits only, is at least 5 characters long (exactly 5 below
    100000), and different IDs give different keys: padding never makes
    two pathways of the database collide. *)
Theorem db_keys_digits_and_distinct (n : Z) :
  (0 <= n)%Z ->
  all_digits (db_pathway_id n) = true
  /\ 5 <= String.length (db_pathway_id n)
  /\ ((n < 100000)%Z -> String.length (db_pathway_id n) = 5)
  /\ (forall m, (0 <= m)%Z -> db_pathway_id m = db_pathway_id n -> m = n).
Proof.
  intros Hn. split; [|split; [|split]].
  - destruct (db_pathway_id_nonneg n Hn) as (k & ->). apply all_digits_uint.
  - unfold db_pathway_id. rewrite zfill_length. lia.
  - intros Hlt. unfold db_pathway_id. rewrite zfill_length.
    enough (String.length (str_of_int n) <= 5) by lia.
    destruct n as [|q|q]; [vm_compute; lia | | lia].
    apply (short_from_spec _ 1 q short_below_100000); lia.
  - intros m Hm E.
    destruct (db_pathway_id_nonneg n Hn) as (k & En).
    destruct (db_pathway_id_nonneg m Hm) as (k' & Em).
    rewrite En, Em in E. apply string_of_uint_inj in E.
    apply (f_equal N.of_uint) in E.
    rewrite !of_uint_zeros, !DecimalN.Unsigned.of_to in E. lia.
Qed.

Lemma db_keys_digits_and_distinct_witness :
  (0 <= 10)%Z /\ db_pathway_id 10%Z = "00010"
  /\ String.length (db_pathway_id 10%Z) = 5.
Proof.
  split; [lia|]. split; [reflexivity|].
  apply (db_keys_digits_and_distinct 10%Z); lia.
Defined.

Lemma sub_ko_prefix (b : string) : sub_ko ("ko" ++ b) = sub_ko b.
Proof. exact (sub_ko_occurrence "" b). Qed.

Lemma clean_ko_key (n : Z) :
  (0 <= n)%Z ->
  clean_pathway_id false (StrID ("ko" ++ db_pathway_id n)) = db_pathway_id n.
Proof.
  intros Hn. destruct (db_pathway_id_nonneg n Hn) as (k & E).
  assert (Hd : all_digits (db_pathway_id n) = true)
    by (rewrite E; apply all_digits_uint).
  unfold clean_pathway_id. rewrite sub_ko_prefix, (sub_ko_digits _ Hd).
  apply zfill_wide.
  unfold db_pathway_id. rewrite zfill_length. lia.
Qed.

Lemma db_key_digits (n : Z) :
  (0 <= n)%Z -> all_digits (db_pathway_id n) = true.
Proof.
  intros Hn. destruct (db_pathway_id_nonneg n Hn) as (k & ->).
  apply all_digits_uint.
Qed.

(** An ID that keeps its [ko] is the key of no database row. *)
Lemma kept_ko_no_key (s : string) (n : Z) :
  (0 <= n)%Z -> clean_pathway_id true (StrID ("ko" ++ s)) <> db_pathway_id n.
Proof.
  intros Hn E. pose proof (db_key_digits n Hn) as Hd. rewrite <- E in Hd.
  unfold clean_pathway_id, zfill in Hd. simpl in Hd.
  rewrite all_digits_app in Hd. simpl in Hd.
  rewrite andb_false_r in Hd. discriminate Hd.
Qed.

(** X8: without copy-on-write (pandas 2) the two sides of the merge agree
    on their keys: a string ID made of [ko] and digits cleans to the
    digits zero-filled to width 5 (a string ID of digits alone likewise),
    so [ko] followed by the key of the database row [n], or by [n]
    printed without padding, cleans to exactly that key.  An ID read as
    an integer gets the key of that integer, with or without
    copy-on-write.  With copy-on-write (pandas 3 and later) a string ID
    that starts with [ko] keeps it and is the key of no database row. *)
Theorem cleaned_id_matches_db_key :
  (forall d, all_digits d = true ->
     clean_pathway_id false (StrID ("ko" ++ d)) = zfill 5 d
     /\ clean_pathway_id false (StrID d) = zfill 5 d)
  /\ (forall n, (0 <= n)%Z ->
     clean_pathway_id false (StrID ("ko" ++ db_pathway_id n)) = db_pathway_id n
     /\ clean_pathway_id false (StrID ("ko" ++ str_of_int n))
        = db_pathway_id n)
  /\ (forall cow n, clean_pathway_id cow (IntID n) = db_pathway_id n)
  /\ (forall s n, (0 <= n)%Z ->
     clean_pathway_id true (StrID ("ko" ++ s)) <> db_pathway_id n).
Proof.
  assert (H : forall d, all_digits d = true ->
     clean_pathway_id false (StrID ("ko" ++ d)) = zfill 5 d
     /\ clean_pathway_id false (StrID d) = zfill 5 d).
  { intros d Hd. unfold clean_pathway_id.
    now rewrite sub_ko_prefix, (sub_ko_digits _ Hd). }
  split; [exact H|]. split; [|split].
  - intros n Hn. split; [exact (clean_ko_key n Hn)|].
    assert (Hd : all_digits (str_of_int n) = true)
      by (rewrite (str_of_int_nonneg _ Hn); apply all_digits_uint).
    exact (proj1 (H _ Hd)).
  - reflexivity.
  - exact kept_ko_no_key.
Qed.

Lemma cleaned_id_matches_db_key_witness :
  all_digits "00010" = true /\ (0 <= 10)%Z
  /\ clean_pathway_id false (StrID "ko00010") = "00010"
  /\ clean_pathway_id false (StrID ("ko" ++ str_of_int 10%Z))
     = db_pathway_id 10%Z
  /\ clean_pathway_id true (StrID "ko00010") <> db_pathway_id 10%Z.
Proof.
  split; [reflexivity|]. split; [lia|]. split; [|split].
  - apply (proj1 (proj1 cleaned_id_matches_db_key "00010" eq_refl)).
  - apply (proj1 (proj2 cleaned_id_matches_db_key) 10%Z). lia.
  - apply (proj2 (proj2 (proj2 cleaned_id_matches_db_key)) "00010" 10%Z).
    lia.
Defined.

Section Tables.
Variables A B : Type.

Lemma merge_inner_In (df1 : list (string * A)) (df2 : list (string * B))
    (id : string) (a : A) (b : B) :
  In (id, (a, b)) (merge_inner A B df1 df2)
  <-> In (id, a) df1 /\ In (id, b) df2.
Proof.
  unfold merge_inner. rewrite in_flat_map. split.
  - intros ([id1 a1] & Hl & H). apply in_map_iff in H.
    destruct H as ([id2 b2] & E & Hr). apply filter_In in Hr.
    destruct Hr as [Hr Hk]. simpl in *. apply String.eqb_eq in Hk.
    injection E as <- <- <-. subst id2. now split.
  - intros [Hl Hr]. exists (id, a). split; [exact Hl|].
    apply in_map_iff. exists (id, b). split; [reflexivity|].
    apply filter_In. split; [exact Hr|]. simpl. apply String.eqb_refl.
Qed.

Lemma merged_df_In (cow : bool) (me_1_kegg : list (id_cell * A))
    (kegg_db : list (Z * B)) (id : string) (a : A) (b : B) :
  In (id, (a, b)) (merged_df A B cow me_1_kegg kegg_db)
  <-> exists raw n,
        In (raw, a) me_1_kegg /\ In (n, b) kegg_db /\
        clean_pathway_id cow raw = id /\ db_pathway_id n = id.
Proof.
  unfold merged_df. rewrite merge_inner_In.
  unfold clean_enrichment, clean_db. rewrite !in_map_iff. split.
  - intros [([raw a'] & E1 & H1) ([n b'] & E2 & H2)]. simpl in *.
    injection E1 as <- <-. injection E2 as E2 <-.
    exists raw, n. repeat split; assumption.
  - intros (raw & n & H1 & H2 & <- & E). split.
    + exists (raw, a). now split.
    + exists (n, b). simpl. rewrite E. now split.
Qed.

(** X9: the merged table holds exactly the pairs of an enrichment row and
    a database row whose cleaned keys are equal, so an enrichment row
    whose cleaned ID is the key of no database row is left out.  Without
    copy-on-write (pandas 2) an enrichment row [ko]+key is joined with
    every database row of that key; with copy-on-write (pandas 3 and
    later) the IDs keep their [ko], and a table all of whose IDs start
    with [ko] merges to nothing. *)
Theorem merged_rows_share_key (me_1_kegg : list (id_cell * A))
    (kegg_db : list (Z * B)) :
  (forall cow id a b,
      In (id, (a, b)) (merged_df A B cow me_1_kegg kegg_db)
      <-> exists raw n,
            In (raw, a) me_1_kegg /\ In (n, b) kegg_db /\
            clean_pathway_id cow raw = id /\ db_pathway_id n = id)
  /\ (forall cow raw a,
      In (raw, a) me_1_kegg ->
      (forall n b, In (n, b) kegg_db ->
                   db_pathway_id n <> clean_pathway_id cow raw) ->
      forall b, ~ In (clean_pathway_id cow raw, (a, b))
                     (merged_df A B cow me_1_kegg kegg_db))
  /\ (forall n a b,
      (0 <= n)%Z ->
      In (StrID ("ko" ++ db_pathway_id n), a) me_1_kegg ->
      In (n, b) kegg_db ->
      In (db_pathway_id n, (a, b)) (merged_df A B false me_1_kegg kegg_db))
  /\ ((forall raw a, In (raw, a) me_1_kegg ->
                     exists s, raw = StrID ("ko" ++ s)) ->
      (forall n b, In (n, b) kegg_db -> (0 <= n)%Z) ->
      merged_df A B true me_1_kegg kegg_db = []).
Proof.
  split; [intros; apply merged_df_In|]. split; [|split].
  - intros cow raw a Hin Hno b H. apply merged_df_In in H.
    destruct H as (raw' & n & _ & Hn & _ & E). exact (Hno n b Hn E).
  - intros n a b Hn Hme Hdb. apply merged_df_In.
    exists (StrID ("ko" ++ db_pathway_id n)), n.
    repeat split; try assumption. exact (clean_ko_key n Hn).
  - intros Hko Hdb.
    destruct (merged_df A B true me_1_kegg kegg_db) as [|[id [a b]] l] eqn:E;
      [reflexivity|]. exfalso.
    assert (Hin : In (id, (a, b)) (merged_df A B true me_1_kegg kegg_db))
      by (rewrite E; now left).
    apply merged_df_In in Hin.
    destruct Hin as (raw & n & Hraw & Hn & Hc & Hk).
    destruct (Hko raw a Hraw) as (s0 & ->).
    apply (kept_ko_no_key s0 n (Hdb n b Hn)). now rewrite Hc, Hk.
Qed.

End Tables.

Lemma merged_rows_share_key_witness :
  In ("00010", ("Glycolysis", "Metabolism"))
     (merged_df string string false
        [(StrID "ko00010", "Glycolysis"); (StrID "ko99999", "Unknown")]
        [(10%Z, "Metabolism"); (20%Z, "Metabolism")])
  /\ ~ In ("99999", ("Unknown", "Metabolism"))
          (merged_df string string false
             [(StrID "ko00010", "Glycolysis"); (StrID "ko99999", "Unknown")]
             [(10%Z, "Metabolism"); (20%Z, "Metabolism")])
  /\ merged_df string string true
        [(StrID "ko00010", "Glycolysis"); (StrID "ko99999", "Unknown")]
        [(10%Z, "Metabolism"); (20%Z, "Metabolism")] = [].
Proof.
  pose proof (merged_rows_share_key string string
                [(StrID "ko00010", "Glycolysis"); (StrID "ko99999", "Unknown")]
                [(10%Z, "Metabolism"); (20%Z, "Metabolism")])
    as (_ & Hout & Hin & Hcow).
  split; [|split].
  - apply (Hin 10%Z "Glycolysis" "Metabolism"); [lia | now left | now left].
  - apply (Hout false (StrID "ko99999") "Unknown"); [right; now left|].
    intros n b [[= <- <-] | [[= <- <-] | []]]; vm_compute; discriminate.
  - apply Hcow.
    + intros raw a [[= <- <-] | [[= <- <-] | []]]; eexists; reflexivity.
    + intros n b [[= <- <-] | [[= <- <-] | []]]; lia.
Defined.

End KeggMergeFacts.

(** ** The largest rows *)

Module TopNFacts.
Import TopN.

Section ByKey.
Context {A : Type} (key : A -> Z).

Lemma insert_by_perm (x : A) (l : list A) :
  Permutation (insert_by key x l) (x :: l).
Proof.
  induction l as [|y l IH]; simpl; [reflexivity|].
  destruct (Z.leb (key y) (key x)); [reflexivity|].
  rewrite IH. apply perm_swap.
Qed.

Lemma sort_desc_perm (l : list A) : Permutation (sort_desc key l) l.
Proof.
  induction l as [|x l IH]; simpl; [reflexivity|].
  rewrite insert_by_perm. now constructor.
Qed.

Lemma insert_by_sorted (x : A) (l : list A) :
  StronglySorted (not_below key) l -> StronglySorted (not_below key) (insert_by key x l).
Proof.
  induction 1 as [|y l Hl IH Hy]; simpl.
  - repeat constructor.
  - destruct (Z.leb (key y) (key x)) eqn:E.
    + apply Z.leb_le in E. constructor; [now constructor|].
      constructor; [exact E|].
      apply Forall_forall. intros z Hz.
      pose proof (proj1 (Forall_forall _ _) Hy z Hz) as Hyz.
      unfold not_below in *. lia.
    + apply Z.leb_gt in E. constructor; [exact IH|].
      apply Forall_forall. intros z Hz.
      apply (Permutation_in _ (insert_by_perm x l)) in Hz.
      destruct Hz as [Hz | Hz]; [subst z; unfold not_below; lia|].
      exact (proj1 (Forall_forall _ _) Hy z Hz).
Qed.

Lemma sort_desc_sorted (l : list A) : StronglySorted (not_below key) (sort_desc key l).
Proof.
  induction l as [|x l IH]; simpl; [constructor | now apply insert_by_sorted].
Qed.

Lemma sorted_app_inv (R : A -> A -> Prop) (l1 l2 : list A) :
  StronglySorted R (l1 ++ l2) ->
  StronglySorted R l1 /\ forall x y, In x l1 -> In y l2 -> R x y.
Proof.
  induction l1 as [|a l1 IH]; simpl; intros H.
  - split; [constructor | intros x y []].
  - inversion H as [|? ? Hl Ha]; subst. destruct (IH Hl) as [Hs Hd].
    apply Forall_app in Ha. destruct Ha as [Ha1 Ha2]. split.
    + now constructor.
    + intros x y [<- | Hx] Hy; [|now apply Hd].
      exact (proj1 (Forall_forall _ _) Ha2 y Hy).
Qed.

Lemma insert_by_filter (k : Z) (x : A) (l : list A) :
  filter (fun y => Z.eqb (key y) k) (insert_by key x l)
  = filter (fun y => Z.eqb (key y) k) (x :: l).
Proof.
  induction l as [|y l IH]; [reflexivity|].
  simpl insert_by. destruct (Z.leb (key y) (key x)) eqn:E; [reflexivity|].
  apply Z.leb_gt in E. simpl in *. rewrite IH.
  destruct (Z.eqb_spec (key x) k) as [Hx|Hx];
    destruct (Z.eqb_spec (key y) k) as [Hy|Hy]; try reflexivity.
  lia.
Qed.

Lemma sort_desc_filter (k : Z) (l : list A) :
  filter (fun y => Z.eqb (key y) k) (sort_desc key l)
  = filter (fun y => Z.eqb (key y) k) l.
Proof.
  induction l as [|x l IH]; [reflexivity|].
  simpl sort_desc. rewrite insert_by_filter. simpl. now rewrite IH.
Qed.

Lemma filter_firstn (p : A -> bool) (n : nat) (l : list A) :
  exists m, filter p (firstn n l) = firstn m (filter p l).
Proof.
  revert n. induction l as [|x l IH]; intros n.
  - exists 0. now destruct n.
  - destruct n as [|n]; [now exists 0|]. simpl.
    destruct (IH n) as (m & E). destruct (p x).
    + exists (S m). simpl. now rewrite E.
    + now exists m.
Qed.

Lemma sort_desc_fixed (l : list A) :
  StronglySorted (not_below key) l -> sort_desc key l = l.
Proof.
  induction 1 as [|x l Hl IH Hx]; [reflexivity|].
  simpl. rewrite IH. destruct l as [|y l']; [reflexivity|]. simpl.
  inversion Hx as [|? ? Hy _]; subst. unfold not_below in Hy.
  apply Z.leb_le in Hy. now rewrite Hy.
Qed.

(** X10: [nlargest] takes the rows with the largest keys: it returns
    [min n (len table)] rows, by falling key, and the rows it leaves out
    (which together with the chosen ones are the table, each row as often
    as it occurs) have keys no larger than any chosen row. *)
Theorem nlargest_takes_the_largest (n : nat) (l : list A) :
  List.length (nlargest_by key n l) = Nat.min n (List.length l)
  /\ StronglySorted (not_below key) (nlargest_by key n l)
  /\ exists rest,
       Permutation (nlargest_by key n l ++ rest) l
       /\ forall x y, In x (nlargest_by key n l) -> In y rest ->
                      (key y <= key x)%Z.
Proof.
  unfold nlargest_by.
  pose proof (sort_desc_sorted l) as Hs.
  rewrite <- (firstn_skipn n (sort_desc key l)) in Hs.
  apply sorted_app_inv in Hs. destruct Hs as [Hs Hd].
  split; [|split; [exact Hs|]].
  - rewrite length_firstn, (Permutation_length (sort_desc_perm l)).
    reflexivity.
  - exists (skipn n (sort_desc key l)). split; [|exact Hd].
    rewrite firstn_skipn. apply sort_desc_perm.
Qed.

(** X11: when [n] is below the number of rows, [nlargest] goes by the
    order of the table among rows of equal key: the chosen rows of any
    one key are the first rows of that key in the table, in table order,
    and a table that is already sorted by falling key is cut after [n]
    rows and otherwise left as it is. *)
Theorem nlargest_keeps_table_order (n : nat) (l : list A) :
  n < List.length l ->
  (forall k, exists m,
      filter (fun y => Z.eqb (key y) k) (nlargest_by key n l)
      = firstn m (filter (fun y => Z.eqb (key y) k) l))
  /\ (StronglySorted (not_below key) l -> nlargest_by key n l = firstn n l).
Proof.
  intros _. split.
  - intros k. unfold nlargest_by.
    destruct (filter_firstn (fun y => Z.eqb (key y) k) n (sort_desc key l))
      as (m & E).
    exists m. now rewrite E, sort_desc_filter.
  - intros H. unfold nlargest_by. now rewrite sort_desc_fixed.
Qed.

End ByKey.

Lemma nlargest_keeps_table_order_witness :
  2 < List.length [(7%Z, "a"); (7%Z, "b"); (3%Z, "c")]
  /\ nlargest_by fst 2 [(7%Z, "a"); (7%Z, "b"); (3%Z, "c")]
     = [(7%Z, "a"); (7%Z, "b")].
Proof.
  split; [simpl; lia|].
  rewrite (proj2 (nlargest_keeps_table_order fst 2
                    [(7%Z, "a"); (7%Z, "b"); (3%Z, "c")]
                    ltac:(simpl; lia))).
  - reflexivity.
  - repeat constructor; unfold not_below; simpl; lia.
Defined.

End TopNFacts.

(** ** The panels of the GO-terms plot *)

Module GoPanels.
Import PyStr PyStrShape PyStrFacts GoPlot GoGroups GoPlotSpec TopN TopNFacts.

Lemma nlargest_by_count n df : nlargest n df = nlargest_by count_key n df.
Proof. reflexivity. Qed.

Lemma prefix_n_length n s :
  String.length (prefix_n n s) = Nat.min n (String.length s).
Proof.
  revert s. induction n as [|n IH]; intros [|c s]; simpl; try reflexivity.
  now rewrite IH.
Qed.

Lemma prefix_n_startswith n s : startswith (prefix_n n s) s = true.
Proof.
  revert s. induction n as [|n IH]; intros [|c s]; simpl; try reflexivity.
  now rewrite Ascii.eqb_refl, IH.
Qed.

Lemma startswith_refl s : startswith s s = true.
Proof. induction s as [|c s IH]; simpl; [reflexivity | now rewrite Ascii.eqb_refl]. Qed.

(** X12: a term of at most 35 characters is plotted as it is; a longer one
    is cut to its first 35 characters; so a label has at most 35
    characters, is a beginning of the term, and cutting twice is cutting
    once. *)
Theorem truncate_term_cuts_at_35 (x : string) :
  String.length (truncate_term x) = Nat.min 35 (String.length x)
  /\ startswith (truncate_term x) x = true
  /\ (truncate_term x = x <-> String.length x <= 35)
  /\ truncate_term (truncate_term x) = truncate_term x.
Proof.
  assert (Hlen : String.length (truncate_term x)
                 = Nat.min 35 (String.length x)).
  { unfold truncate_term. destruct (Nat.ltb_spec 35 (String.length x)).
    - apply prefix_n_length.
    - lia. }
  assert (Hfix : forall y, String.length y <= 35 -> truncate_term y = y).
  { intros y Hy. unfold truncate_term.
    destruct (Nat.ltb_spec 35 (String.length y)); [lia | reflexivity]. }
  split; [exact Hlen|]. split; [|split].
  - unfold truncate_term. destruct (Nat.ltb 35 (String.length x)).
    + apply prefix_n_startswith.
    + apply startswith_refl.
  - split; [|apply Hfix]. intros E. rewrite E in Hlen. lia.
  - apply Hfix. rewrite Hlen. lia.
Qed.


Lemma unique_NoDup (l : list string) : NoDup (unique l).
Proof.
  induction l as [|x l IH]; simpl; constructor.
  - rewrite filter_In. intros [_ H]. now rewrite String.eqb_refl in H.
  - now apply NoDup_filter.
Qed.


Section Groups.
Context {A : Type} (grp : A -> string).




End Groups.


Section Plot.
Variable log10 : float -> float.

(** X14: the plot has one panel for each group of the filtered table,
    titled by the group and in the order of [groups]; a panel shows at
    most 100 bars, all of its own group, by falling count, and they are
    the rows of the group with the largest counts; a group of at most 100
    rows is shown whole. *)
Theorem panels_show_top_100 (df : list go_row) :
  map fst (panels log10 df)
  = unique (map (fun r => group (row r)) (prepared log10 df))
  /\ NoDup (map fst (panels log10 df))
  /\ forall g bars, In (g, bars) (panels log10 df) ->
       List.length bars
       = Nat.min 100 (List.length
                        (filter (fun r => String.eqb (group (row r)) g)
                                (prepared log10 df)))
       /\ (forall bar, In bar bars -> group (row bar) = g)
       /\ StronglySorted (fun a b => (Count (row b) <= Count (row a))%Z) bars
       /\ (exists rest,
             Permutation (bars ++ rest)
               (filter (fun r => String.eqb (group (row r)) g)
                       (prepared log10 df))
             /\ forall x y, In x bars -> In y rest ->
                            (Count (row y) <= Count (row x))%Z)
       /\ (List.length (filter (fun r => String.eqb (group (row r)) g)
                               (prepared log10 df)) <= 100 ->
           Permutation bars
             (filter (fun r => String.eqb (group (row r)) g)
                     (prepared log10 df))).
Proof.
  assert (Hfst : map fst (panels log10 df)
                 = unique (map (fun r => group (row r)) (prepared log10 df))).
  { unfold panels. rewrite map_map. simpl. apply map_id. }
  split; [exact Hfst|]. split; [rewrite Hfst; apply unique_NoDup|].
  intros g bars H. unfold panels in H. apply in_map_iff in H.
  destruct H as (g' & [= <- <-] & _).
  set (d := filter (fun r => String.eqb (group (row r)) g') (prepared log10 df)).
  rewrite nlargest_by_count.
  destruct (nlargest_takes_the_largest count_key 100 d)
    as (Hlen & Hs & rest & Hperm & Hdom).
  split; [exact Hlen|]. split; [|split; [exact Hs|split]].
  - intros bar Hbar.
    assert (Hin : In bar d).
    { apply (Permutation_in _ Hperm). apply in_or_app. now left. }
    apply filter_In in Hin. now apply String.eqb_eq.
  - exists rest. now split.
  - intros Hle.
    assert (Hrest : rest = []).
    { apply Permutation_length in Hperm. rewrite length_app, Hlen in Hperm.
      unfold d in *. destruct rest as [|x rest]; [reflexivity|].
      cbn [List.length] in Hperm. lia. }
    rewrite Hrest, app_nil_r in Hperm. exact Hperm.
Qed.

End Plot.

Lemma panels_show_top_100_witness :
  List.length
    (snd (hd (EmptyString, [])
             (panels (fun x => x) [ GoRow "cell wall" 12 0.03125%float "CC" ])))
  = Nat.min 100 1.
Proof.
  destruct (panels_show_top_100 (fun x => x)
              [ GoRow "cell wall" 12 0.03125%float "CC" ]) as (_ & _ & H).
  destruct (H "CC"
              (snd (hd (EmptyString, [])
                       (panels (fun x => x)
                               [ GoRow "cell wall" 12 0.03125%float "CC" ]))))
    as (Hlen & _).
  - vm_compute. left. reflexivity.
  - exact Hlen.
Defined.

End GoPanels.

(** ** The error bars of the virus-copies plot *)

Module VirusCopiesFacts.
Import VirusCopies.

Lemma error_bars_present scale : forall column draws,
  List.length column = List.length draws ->
  Forall (fun x => PrimFloat.is_nan x = false) column ->
  error_bars scale column draws = map (fun u => PrimFloat.mul u scale) draws.
Proof.
  unfold error_bars, np_where.
  induction column as [|x column IH]; intros [|u draws] Hlen Hcol;
    try discriminate; [reflexivity|].
  inversion Hcol as [|? ? Hx Hrest]; subst. simpl. unfold notna at 1.
  rewrite Hx. simpl. f_equal. apply IH; [now injection Hlen | exact Hrest].
Qed.

(** X15: the error bars do not depend on the copy numbers: for a column
    with no missing value the error of each bar is its random draw times
    the scale, so two such columns of the same length get the same error
    bars from the same draws; there is one error per bar, and a missing
    value would get a missing error. *)
Theorem error_bars_ignore_the_data (scale : float)
    (column column' draws : list float) :
  List.length column = List.length draws ->
  List.length column' = List.length draws ->
  Forall (fun x => PrimFloat.is_nan x = false) column ->
  Forall (fun x => PrimFloat.is_nan x = false) column' ->
  error_bars scale column draws = map (fun u => PrimFloat.mul u scale) draws
  /\ error_bars scale column draws = error_bars scale column' draws
  /\ List.length (error_bars scale column draws) = List.length column
  /\ (forall u rest, error_bars scale (PrimFloat.nan :: column) (u :: rest)
                     = PrimFloat.nan :: error_bars scale column rest).
Proof.
  intros Hl Hl' Hc Hc'.
  rewrite (error_bars_present scale column draws Hl Hc),
          (error_bars_present scale column' draws Hl' Hc').
  repeat split.
  - now rewrite length_map.
Qed.

Lemma error_bars_ignore_the_data_witness :
  error_bars 1000 [54573.5%float; 81310%float] [0.5%float; 0.25%float]
  = error_bars 1000 [8068.25%float; 14006%float] [0.5%float; 0.25%float].
Proof.
  apply (error_bars_ignore_the_data 1000
           [54573.5%float; 81310%float] [8068.25%float; 14006%float]
           [0.5%float; 0.25%float]);
    try reflexivity; repeat constructor.
Defined.

End VirusCopiesFacts.
